(** * MarketPulse: the World Bank data pipeline of [marketpulse.py]

    A shallow embedding of the data layer ([wb_fetch_series],
    [wb_fetch_multi]) and of the transform and analytics statements of the
    script (year filter, z-score normalisation, wide pivot, correlation),
    followed by the properties of the pipeline.

    Conventions.
    - JSON text is modelled after parsing, as the Python objects that
      [resp.json()] returns.  A [str] is a [string] whose characters are
      read as the code points 0..255 (the Latin-1 range of Unicode).
    - Floating point is idealised: numbers read from JSON are rationals
      ([Q]); the statistics of the transform stage are computed over the
      reals ([R]), with [NaN] as a separate value.
    - [while True] is modelled with fuel; running out of fuel is the
      outcome [Diverge], which no [except] clause catches.
    - The library calls of the script ([requests], [st.cache_data],
      [pandas]) are modelled by what they do with the arguments and
      defaults the script passes; each definition says which call it
      stands for. *)

From Stdlib Require Import List ZArith QArith String Ascii Bool Lia Lra.
From Stdlib Require Import Reals Permutation Sorted.
From stdpp Require Import base option gmap strings.
Import ListNotations.

Local Open Scope Z_scope.
Set Warnings "-register-all".


(** ** Python objects *)

Inductive pyobj : Type :=
| PNone
| PBool (b : bool)
| PInt (z : Z)
| PFloat (q : Q)
| PStr (s : string)
| PList (l : list pyobj)
| PDict (kvs : list (string * pyobj)).

(** Exceptions the data layer can raise.  [RuntimeError] carries the HTTP
    status of line 77; the others come from the interpreter and from
    [requests]. *)
Inductive exn : Type :=
| RuntimeError (status : Z)
| RequestException
| JSONDecodeError
| ValueError
| TypeError
| AttributeError.

Inductive outcome (A : Type) : Type :=
| Ok (a : A)
| Raise (e : exn)
| Diverge.
Arguments Ok {A} a.
Arguments Raise {A} e.
Arguments Diverge {A}.

(** [d[k]] on the key/value list of a dict (keys of a parsed JSON object are
    strings; a dict holds a key once, so the first hit is the only one). *)
Fixpoint assoc {A : Type} (k : string) (kvs : list (string * A)) : option A :=
  match kvs with
  | [] => None
  | (k', v) :: rest => if String.eqb k k' then Some v else assoc k rest
  end.

(** [v.get(k, default)]: only a dict has the method; [None] is the
    [AttributeError] of any other object. *)
Definition py_get (v : pyobj) (k : string) (default : pyobj) : option pyobj :=
  match v with
  | PDict kvs => Some (match assoc k kvs with Some x => x | None => default end)
  | _ => None
  end.

(** Truth value of an object ([if not rows], [if r.get("date") and ...]). *)
Definition truthy (v : pyobj) : bool :=
  match v with
  | PNone => false
  | PBool b => b
  | PInt z => negb (z =? 0)
  | PFloat q => negb (Qeq_bool q 0)
  | PStr s => negb (String.eqb s "")
  | PList l => match l with [] => false | _ :: _ => true end
  | PDict d => match d with [] => false | _ :: _ => true end
  end.

(** [bool], [int] and [float] compare with one another by value. *)
Definition as_number (v : pyobj) : option Q :=
  match v with
  | PBool b => Some (if b then 1%Q else 0%Q)
  | PInt z => Some (inject_Z z)
  | PFloat q => Some q
  | _ => None
  end.

(** [a == b]. *)
Fixpoint py_eq (a b : pyobj) {struct a} : bool :=
  match a, b with
  | PNone, PNone => true
  | PStr s, PStr t => String.eqb s t
  | PList l, PList m =>
      (fix go (l m : list pyobj) {struct l} : bool :=
         match l, m with
         | [], [] => true
         | x :: l', y :: m' => py_eq x y && go l' m'
         | _, _ => false
         end) l m
  | PDict d, PDict e =>
      Nat.eqb (length d) (length e) &&
      (fix go (d : list (string * pyobj)) {struct d} : bool :=
         match d with
         | [] => true
         | (k, v) :: d' =>
             match assoc k e with Some w => py_eq v w | None => false end
             && go d'
         end) d
  | PBool _, _ | PInt _, _ | PFloat _, _ =>
      match as_number a, as_number b with
      | Some x, Some y => Qeq_bool x y
      | _, _ => false
      end
  | _, _ => false
  end.

(** [a >= b]; [None] is the [TypeError] of an unordered pair of types.
    Lists compare at the first pair of items that are not [==], else by
    length. *)
Fixpoint py_ge (a b : pyobj) {struct a} : option bool :=
  match a, b with
  | PStr s, PStr t => Some (String.leb t s)
  | PList l, PList m =>
      (fix go (l m : list pyobj) {struct l} : option bool :=
         match l, m with
         | _, [] => Some true
         | [], _ :: _ => Some false
         | x :: l', y :: m' => if py_eq x y then go l' m' else py_ge x y
         end) l m
  | PBool _, _ | PInt _, _ | PFloat _, _ =>
      match as_number a, as_number b with
      | Some x, Some y => Some (Qle_bool y x)
      | _, _ => None
      end
  | _, _ => None
  end.

(** The items [list.extend(v)] appends: the items of a list, the keys of a
    dict, the characters of a str; other objects are not iterable. *)
Definition py_iter (v : pyobj) : option (list pyobj) :=
  match v with
  | PList l => Some l
  | PDict d => Some (map (fun kv => PStr (fst kv)) d)
  | PStr s => Some (map (fun c => PStr (String c EmptyString)) (list_ascii_of_string s))
  | _ => None
  end.

(** ** The remote API *)

(** What [requests.get] gives back: a transport failure (the call raises),
    or a response with its status and its body parsed as JSON ([None] when
    the body is not JSON and [resp.json()] raises). *)
Inductive response : Type :=
| ConnectionFailed
| Http (status_code : Z) (json : option pyobj).

(** A request names the country, the indicator and the page of the URL. *)
Definition request : Type := (string * string * Z)%type.

(** The network answers the [t]-th request of the session; it may answer
    the same request differently at different times. *)
Definition network : Type := nat -> request -> response.

(** ** The page loop of [wb_fetch_series] (lines 72-89)

    [fetch_pages] is the [while True] loop from the state [(page,
    all_rows)], with [t] requests issued before.  It returns the outcome and
    the number of requests issued when it stops. *)
Fixpoint fetch_pages (net : network) (country_iso3 indicator : string)
    (fuel : nat) (t : nat) (page : Z) (all_rows : list pyobj)
  : outcome (list pyobj) * nat :=
  match fuel with
  | O => (Diverge, t)
  | S fuel' =>
    match net t (country_iso3, indicator, page) with
    | ConnectionFailed => (Raise RequestException, S t)
    | Http status_code body =>
      if negb (status_code =? 200) then (Raise (RuntimeError status_code), S t)
      else
        match body with
        | None => (Raise JSONDecodeError, S t)
        | Some (PList (meta :: rows :: rest)) =>
          match rest with
          | _ :: _ => (Raise ValueError, S t)
          | [] =>
            if negb (truthy rows) then (Ok all_rows, S t)
            else
              match py_iter rows with
              | None => (Raise TypeError, S t)
              | Some items =>
                let all_rows' := all_rows ++ items in
                match py_get meta "page" PNone with
                | None => (Raise AttributeError, S t)
                | Some p =>
                  match py_get meta "pages" (PInt 1) with
                  | None => (Raise AttributeError, S t)
                  | Some ps =>
                    match py_ge p ps with
                    | None => (Raise TypeError, S t)
                    | Some true => (Ok all_rows', S t)
                    | Some false =>
                        fetch_pages net country_iso3 indicator fuel' (S t)
                                    (page + 1) all_rows'
                    end
                  end
                end
              end
          end
        | Some _ => (Ok all_rows, S t)
        end
    end
  end.

(** ** From rows to a frame (lines 91-108) *)

(** [str.isdigit]: every character is a decimal digit or a digit of another
    kind, and there is at least one.  Below code point 256 the decimal
    digits are 0-9 and the other digits are the superscripts two, three and
    one (U+00B2, U+00B3, U+00B9). *)
Definition is_decimal (c : ascii) : bool :=
  let n := Z.of_nat (nat_of_ascii c) in (48 <=? n) && (n <=? 57).

Definition is_digit (c : ascii) : bool :=
  let n := Z.of_nat (nat_of_ascii c) in
  is_decimal c || (n =? 178) || (n =? 179) || (n =? 185).

Definition isdigit (s : string) : bool :=
  negb (String.eqb s "") && forallb is_digit (list_ascii_of_string s).

(** [str(v).isdigit()].  [str] of an int is its decimal numeral, with a
    minus sign when negative; [str] of a float, a bool, [None], a list or a
    dict always holds a character that is no digit.  The ints of a parsed
    body were read by [int], so they are within its cap on digits
    ([int_max_str_digits] below) and [str] writes them. *)
Definition str_isdigit (v : pyobj) : bool :=
  match v with
  | PStr s => isdigit s
  | PInt z => 0 <=? z
  | _ => false
  end.

(** The base-ten value of a str made of digit characters (the only strs
    that reach [int]): [None] when one of them is no decimal digit. *)
Fixpoint int_of_digits (acc : Z) (cs : list ascii) : option Z :=
  match cs with
  | [] => Some acc
  | c :: cs' =>
      if is_decimal c
      then int_of_digits (10 * acc + (Z.of_nat (nat_of_ascii c) - 48)) cs'
      else None
  end.

(** [sys.get_int_max_str_digits()], the interpreter's default: [int]
    refuses a decimal str of more digits, leading zeros included, with
    [ValueError]. *)
Definition int_max_str_digits : Z := 4300.

(** [int(v)] for the objects that pass the guard of line 100; [None] is
    [ValueError], for a character that is no decimal digit and for a
    numeral longer than the cap alike.  An int is returned as it is. *)
Definition py_int (v : pyobj) : option Z :=
  match v with
  | PInt z => Some z
  | PStr s =>
      if Z.of_nat (String.length s) <=? int_max_str_digits
      then int_of_digits 0 (list_ascii_of_string s)
      else None
  | _ => None
  end.

(** [int(d) if d and str(d).isdigit() else None], for [d = r.get("date")]. *)
Definition parse_date (d : pyobj) : outcome (option Z) :=
  if truthy d && str_isdigit d
  then match py_int d with
       | Some z => Ok (Some z)
       | None => Raise ValueError
       end
  else Ok None.

(** One dict of the comprehension of lines 95-104. *)
Record record : Type := {
  rec_country : pyobj;
  rec_countryiso3code : pyobj;
  rec_indicator : pyobj;
  rec_date : option Z;
  rec_value : pyobj
}.

(** [r.get(k, {}).get(sub)]. *)
Definition get_nested (r : pyobj) (k sub : string) : option pyobj :=
  match py_get r k (PDict []) with
  | Some inner => py_get inner sub PNone
  | None => None
  end.

(** The dict built for one API row; the entries are evaluated in the order
    written, so the first failing one decides the exception. *)
Definition make_record (r : pyobj) : outcome record :=
  match get_nested r "country" "value" with
  | None => Raise AttributeError
  | Some c =>
    match py_get r "countryiso3code" PNone with
    | None => Raise AttributeError
    | Some iso =>
      match get_nested r "indicator" "id" with
      | None => Raise AttributeError
      | Some ind =>
        match py_get r "date" PNone with
        | None => Raise AttributeError
        | Some d =>
          match parse_date d with
          | Raise e => Raise e
          | Diverge => Diverge
          | Ok date =>
            match py_get r "value" PNone with
            | None => Raise AttributeError
            | Some v =>
                Ok {| rec_country := c; rec_countryiso3code := iso;
                      rec_indicator := ind; rec_date := date; rec_value := v |}
            end
          end
        end
      end
    end
  end.

(** The list comprehension: rows are visited in order and the first
    exception ends it. *)
Fixpoint make_records (all_rows : list pyobj) : outcome (list record) :=
  match all_rows with
  | [] => Ok []
  | r :: rest =>
      match make_record r with
      | Raise e => Raise e
      | Diverge => Diverge
      | Ok x =>
          match make_records rest with
          | Ok xs => Ok (x :: xs)
          | other => other
          end
      end
  end.

(** A row of the returned frame: [date] survived [dropna], [value] went
    through [pd.to_numeric(errors="coerce")] ([None] is NaN). *)
Record row : Type := {
  country : pyobj;
  countryiso3code : pyobj;
  indicator : pyobj;
  date : Z;
  value : option Q
}.

Definition frame : Type := list row.

(** [pd.to_numeric(..., errors="coerce")] on one cell.  Numbers are kept,
    bools count as 0 and 1, [None] and whatever cannot be read become NaN.
    [read_number] is the library's reader of numeric text, a parameter of
    the model. *)
Definition to_numeric (read_number : string -> option Q) (v : pyobj) : option Q :=
  match v with
  | PInt z => Some (inject_Z z)
  | PFloat q => Some q
  | PBool b => Some (if b then 1%Q else 0%Q)
  | PStr s => read_number s
  | PNone | PList _ | PDict _ => None
  end.

(** [df.dropna(subset=["date"])] with the [value] column converted. *)
Fixpoint dropna_date (read_number : string -> option Q) (recs : list record) : frame :=
  match recs with
  | [] => []
  | x :: rest =>
      match rec_date x with
      | Some d =>
          {| country := rec_country x; countryiso3code := rec_countryiso3code x;
             indicator := rec_indicator x; date := d;
             value := to_numeric read_number (rec_value x) |}
          :: dropna_date read_number rest
      | None => dropna_date read_number rest
      end
  end.

(** [sort_values("date")], as an insertion sort that keeps rows of one year
    in their order (pandas leaves the order of ties open). *)
Fixpoint insert_by_date (r : row) (sorted : frame) : frame :=
  match sorted with
  | [] => [r]
  | x :: rest =>
      if date r <=? date x then r :: sorted else x :: insert_by_date r rest
  end.

Fixpoint sort_values_date (df : frame) : frame :=
  match df with
  | [] => []
  | r :: rest => insert_by_date r (sort_values_date rest)
  end.

(** Lines 91-108: the frame of the accumulated rows. *)
Definition frame_of_rows (read_number : string -> option Q)
    (all_rows : list pyobj) : outcome frame :=
  match all_rows with
  | [] => Ok []
  | _ :: _ =>
      match make_records all_rows with
      | Ok recs => Ok (sort_values_date (dropna_date read_number recs))
      | Raise e => Raise e
      | Diverge => Diverge
      end
  end.

(** The body of [wb_fetch_series], started when [t] requests were issued. *)
Definition fetch_series_body (net : network) (read_number : string -> option Q)
    (fuel : nat) (t : nat) (country_iso3 indicator : string)
  : outcome frame * nat :=
  match fetch_pages net country_iso3 indicator fuel t 1 [] with
  | (Ok all_rows, t') => (frame_of_rows read_number all_rows, t')
  | (Raise e, t') => (Raise e, t')
  | (Diverge, t') => (Diverge, t')
  end.

(** ** The Streamlit session: caches and messages *)

(** A message of [st.warning] at line 118: indicator, country, exception. *)
Definition warning : Type := (string * string * exn)%type.

(** State of one session.  [clock] counts the calls of [requests.get];
    [fetches] logs each run of the body of [wb_fetch_series];
    [series_cache] and [multi_cache] are the stores of the two
    [@st.cache_data] decorators, keyed by the arguments; [warnings] are the
    messages shown so far. *)
Record session : Type := {
  clock : nat;
  fetches : list (string * string);
  series_cache : gmap (string * string) frame;
  multi_cache : gmap (list string * list string) (frame * list warning);
  warnings : list warning
}.

Definition M (A : Type) : Type := session -> outcome A * session.

Definition ret {A : Type} (a : A) : M A := fun s => (Ok a, s).

Definition bind {A B : Type} (m : M A) (k : A -> M B) : M B :=
  fun s =>
    match m s with
    | (Ok a, s') => k a s'
    | (Raise e, s') => (Raise e, s')
    | (Diverge, s') => (Diverge, s')
    end.

Notation "'let*' x ':=' m 'in' k" := (bind m (fun x => k))
  (at level 10, x name, m at level 100, k at level 200, only parsing).

(** [try: body except Exception as e: handler(e)]. *)
Definition try_except {A : Type} (body : M A) (handler : exn -> M A) : M A :=
  fun s =>
    match body s with
    | (Raise e, s') => handler e s'
    | other => other
    end.

(** [for x in xs: acc = body(x, acc)]. *)
Fixpoint for_each {A S : Type} (xs : list A) (body : A -> S -> M S) (acc : S) : M S :=
  match xs with
  | [] => ret acc
  | x :: rest => let* acc' := body x acc in for_each rest body acc'
  end.

Definition st_warning (w : warning) : M unit :=
  fun s =>
    (Ok tt, {| clock := clock s; fetches := fetches s;
               series_cache := series_cache s; multi_cache := multi_cache s;
               warnings := warnings s ++ [w] |}).

(** [wb_fetch_series] under [@st.cache_data] (lines 66-67): a stored frame
    is returned without running the body; otherwise the body runs, and its
    frame is stored when it returns one.  A call that raises stores
    nothing. *)
Definition wb_fetch_series (net : network) (read_number : string -> option Q)
    (fuel : nat) (country_iso3 indicator : string) : M frame :=
  fun s =>
    match series_cache s !! (country_iso3, indicator) with
    | Some df => (Ok df, s)
    | None =>
        let '(r, t') :=
          fetch_series_body net read_number fuel (clock s) country_iso3 indicator in
        let log := fetches s ++ [(country_iso3, indicator)] in
        match r with
        | Ok df =>
            (Ok df, {| clock := t'; fetches := log;
                       series_cache := <[(country_iso3, indicator) := df]> (series_cache s);
                       multi_cache := multi_cache s; warnings := warnings s |})
        | _ =>
            (r, {| clock := t'; fetches := log;
                   series_cache := series_cache s;
                   multi_cache := multi_cache s; warnings := warnings s |})
        end
    end.

(** The body of [wb_fetch_multi] (lines 112-122).  [pd.concat(frames,
    ignore_index=True)] stacks the rows of the frames in order. *)
Definition fetch_multi_body (net : network) (read_number : string -> option Q)
    (fuel : nat) (countries_iso3 indicators : list string) : M frame :=
  let* frames :=
    for_each countries_iso3 (fun c frames =>
      for_each indicators (fun ind frames =>
        try_except
          (let* df := wb_fetch_series net read_number fuel c ind in
           ret (frames ++ [df]))
          (fun e => let* _ := st_warning (ind, c, e) in ret frames))
        frames)
      [] in
  match frames with
  | [] => ret []
  | _ :: _ => ret (concat frames)
  end.

(** [wb_fetch_multi] under [@st.cache_data] (line 110): on a hit the stored
    frame is returned and the messages of the stored run are shown again;
    on a miss the body runs and a returned frame is stored with the
    messages the run showed. *)
Definition wb_fetch_multi (net : network) (read_number : string -> option Q)
    (fuel : nat) (countries_iso3 indicators : list string) : M frame :=
  fun s =>
    match multi_cache s !! (countries_iso3, indicators) with
    | Some (df, msgs) =>
        (Ok df, {| clock := clock s; fetches := fetches s;
                   series_cache := series_cache s; multi_cache := multi_cache s;
                   warnings := warnings s ++ msgs |})
    | None =>
        match fetch_multi_body net read_number fuel countries_iso3 indicators s with
        | (Ok df, s') =>
            let msgs := skipn (length (warnings s)) (warnings s') in
            (Ok df, {| clock := clock s'; fetches := fetches s';
                       series_cache := series_cache s';
                       multi_cache := <[(countries_iso3, indicators) := (df, msgs)]> (multi_cache s');
                       warnings := warnings s' |})
        | other => other
        end
    end.

(** The session with its messages replaced. *)
Definition set_warnings (w : list warning) (s : session) : session :=
  {| clock := clock s; fetches := fetches s; series_cache := series_cache s;
     multi_cache := multi_cache s; warnings := w |}.

(** *** The batch as the specification tells it

    [run_pairs] calls the cached fetch for each pair in turn and lists the
    pair with its outcome; [successes] are the frames of the pairs that
    returned, [failures] the messages of the pairs that raised. *)
Fixpoint run_pairs (net : network) (read_number : string -> option Q) (fuel : nat)
    (pairs : list (string * string)) (s : session)
  : list ((string * string) * outcome frame) * session :=
  match pairs with
  | [] => ([], s)
  | (c, ind) :: rest =>
      let '(r, s1) := wb_fetch_series net read_number fuel c ind s in
      let '(tr, s2) := run_pairs net read_number fuel rest s1 in
      (((c, ind), r) :: tr, s2)
  end.

Fixpoint successes (tr : list ((string * string) * outcome frame)) : list frame :=
  match tr with
  | [] => []
  | (_, Ok df) :: rest => df :: successes rest
  | _ :: rest => successes rest
  end.

Fixpoint failures (tr : list ((string * string) * outcome frame)) : list warning :=
  match tr with
  | [] => []
  | ((c, ind), Raise e) :: rest => (ind, c, e) :: failures rest
  | _ :: rest => failures rest
  end.

Fixpoint diverged (tr : list ((string * string) * outcome frame)) : bool :=
  match tr with
  | [] => false
  | (_, Diverge) :: _ => true
  | _ :: rest => diverged rest
  end.

(** A fresh session. *)
Definition new_session : session :=
  {| clock := 0; fetches := []; series_cache := ∅; multi_cache := ∅; warnings := [] |}.

(** ** The script after loading (lines 168-231)

    The frame [data] of the script, with text labels ([None] where a label
    is missing) and real-valued cells. *)

Inductive cell : Type :=
| Val (x : R)
| NaN.

Record obs : Type := {
  obs_country : option string;
  obs_countryiso3code : option string;
  obs_indicator : option string;
  obs_date : Z;
  obs_value : cell
}.

(** [INDICATORS] (lines 53-58): code, label, units. *)
Definition INDICATORS : list (string * (string * string)) :=
  [ ("NY.GDP.MKTP.KD.ZG", ("GDP growth", "% (annual)"));
    ("FP.CPI.TOTL.ZG", ("Inflation, CPI", "% (annual)"));
    ("SL.UEM.TOTL.ZS", ("Unemployment", "% of labor force")) ].

(** [name_map] (line 169) and the column [indicator_name] (line 170):
    a code outside the map gives a missing label. *)
Definition name_map (code : string) : option string :=
  option_map fst (assoc code INDICATORS).

Definition indicator_name (r : obs) : option string :=
  match obs_indicator r with
  | Some code => name_map code
  | None => None
  end.

(** Lines 172-173: the year mask and [data.loc[mask]]. *)
Definition year_mask (min_year max_year : Z) (r : obs) : bool :=
  (min_year <=? obs_date r) && (obs_date r <=? max_year).

Definition year_filter (min_year max_year : Z) (data : list obs) : list obs :=
  List.filter (year_mask min_year max_year) data.

(** *** Series statistics *)

Local Open Scope R_scope.

(** The values of a series that are not NaN ([skipna]). *)
Fixpoint present (s : list cell) : list R :=
  match s with
  | [] => []
  | Val x :: rest => x :: present rest
  | NaN :: rest => present rest
  end.

Definition rsum (xs : list R) : R := fold_right Rplus 0 xs.

Definition mean (xs : list R) : R := rsum xs / INR (length xs).

(** Sum of squared deviations from the mean. *)
Definition ssd (xs : list R) : R :=
  rsum (map (fun x => (x - mean xs) * (x - mean xs)) xs).

(** [s.mean()]: NaN when no value is present. *)
Definition s_mean (s : list cell) : cell :=
  match present s with
  | [] => NaN
  | xs => Val (mean xs)
  end.

(** [s.std()]: sample standard deviation ([ddof=1]) of the present values,
    NaN when fewer than two are present. *)
Definition s_std (s : list cell) : cell :=
  let xs := present s in
  if (length xs <? 2)%nat then NaN
  else Val (sqrt (ssd xs / (INR (length xs) - 1))).

Definition csub (a b : cell) : cell :=
  match a, b with
  | Val x, Val y => Val (x - y)
  | _, _ => NaN
  end.

(** Division of cells.  The model has no infinities: a zero divisor gives
    NaN.  The divisor of the script is never zero. *)
Definition cdiv (a b : cell) : cell :=
  match a, b with
  | Val x, Val y => if Req_dec_T y 0 then NaN else Val (x / y)
  | _, _ => NaN
  end.

(** [sd in (0, None)]: [std()] returns a float, which equals [0] when it
    is zero and is never [None]; NaN equals neither. *)
Definition in_0_None (sd : cell) : bool :=
  match sd with
  | Val x => if Req_dec_T x 0 then true else false
  | NaN => false
  end.

(** The lambda of line 198. *)
Definition zscore (s : list cell) : list cell :=
  let divisor := if negb (in_0_None (s_std s)) then s_std s else Val 1 in
  map (fun v => cdiv (csub v (s_mean s)) divisor) s.

(** *** [groupby(...)[col].transform(f)] *)

Definition group_key (r : obs) : option (string * string) :=
  match obs_countryiso3code r, obs_indicator r with
  | Some c, Some i => Some (c, i)
  | _, _ => None
  end.

Definition same_key (k : string * string) (r : obs) : bool :=
  match group_key r with
  | Some (c, i) => String.eqb (fst k) c && String.eqb (snd k) i
  | None => false
  end.

(** The rows of one group, in frame order.  Rows with a missing key are in
    no group. *)
Definition group (data : list obs) (k : string * string) : list obs :=
  List.filter (same_key k) data.

(** The result of [f] on each group's series goes back to the rows of the
    group, in order; rows in no group get NaN.  [seen] are the rows before
    the current one. *)
Fixpoint scatter (f : list cell -> list cell) (data seen rest : list obs) : list cell :=
  match rest with
  | [] => []
  | r :: rest' =>
      match group_key r with
      | None => NaN
      | Some k =>
          nth (length (group seen k)) (f (map obs_value (group data k))) NaN
      end :: scatter f data (seen ++ [r]) rest'
  end.

Definition transform (f : list cell -> list cell) (data : list obs) : list cell :=
  scatter f data [] data.

(** Lines 195-199: the column [value_norm]. *)
Definition value_norm (data : list obs) : list cell := transform zscore data.

(** [ycol] (lines 207, 224): the column that is charted and pivoted. *)
Definition ycol (norm : bool) (data : list obs) : list cell :=
  if norm then value_norm data else map obs_value data.

(** *** The groups of the specification

    The observations of a frame that share a country code and an indicator
    code, in frame order.  This is written from the wording of the
    specification, with the two columns compared directly, and is compared
    with the groups of [transform] in the normalisation theorem. *)
Definition sharing (c ind : string) (data : list obs) : list obs :=
  List.filter
    (fun r => bool_decide (obs_countryiso3code r = Some c /\ obs_indicator r = Some ind))
    data.

(** *** The wide pivot (lines 221-229) *)

Local Open Scope Z_scope.

(** A column label of the pivot: country and indicator name. *)
Definition label : Type := (string * string)%type.

Definition label_compare (a b : label) : comparison :=
  match String.compare (fst a) (fst b) with
  | Eq => String.compare (snd a) (snd b)
  | c => c
  end.

(** A group key of [pivot_table]: year and label. *)
Definition pivot_compare (a b : Z * label) : comparison :=
  match Z.compare (fst a) (fst b) with
  | Eq => label_compare (snd a) (snd b)
  | c => c
  end.

(** Sorted list of the distinct members, as [groupby(sort=True)] and
    [unstack] order their keys. *)
Fixpoint insert_uniq {A : Type} (cmp : A -> A -> comparison) (x : A) (l : list A) : list A :=
  match l with
  | [] => [x]
  | y :: rest =>
      match cmp x y with
      | Lt => x :: l
      | Eq => l
      | Gt => y :: insert_uniq cmp x rest
      end
  end.

Definition sort_uniq {A : Type} (cmp : A -> A -> comparison) (l : list A) : list A :=
  fold_right (insert_uniq cmp) [] l.

(** A wide table: the years of the index and, for each column, its label
    and its cells, one per year of the index. *)
Record wide : Type := {
  index : list Z;
  columns : list (label * list cell)
}.

(** The cell of a column at year [y]; NaN when the year is not in the
    index. *)
Fixpoint at_year (idx : list Z) (cells : list cell) (y : Z) : cell :=
  match idx, cells with
  | i :: idx', c :: cells' => if i =? y then c else at_year idx' cells' y
  | _, _ => NaN
  end.

(** The frame handed to [pivot_table]: rows with the column [ycol]. *)
Definition with_ycol (norm : bool) (data : list obs) : list (obs * cell) :=
  combine data (ycol norm data).

(** [data[data["indicator"] == ind]]. *)
Definition has_indicator (ind : string) (r : obs) : bool :=
  match obs_indicator r with
  | Some i => String.eqb i ind
  | None => false
  end.

Definition select_indicator (ind : string) (df : list (obs * cell)) : list (obs * cell) :=
  List.filter (fun rc => has_indicator ind (fst rc)) df.

(** The group key of a row in [pivot_table(index="date",
    columns=["country","indicator_name"])]; a row with a missing label is
    in no group. *)
Definition pivot_key (r : obs) : option (Z * label) :=
  match obs_country r, indicator_name r with
  | Some c, Some n => Some (obs_date r, (c, n))
  | _, _ => None
  end.

Fixpoint pivot_keys (df : list (obs * cell)) : list (Z * label) :=
  match df with
  | [] => []
  | (r, _) :: rest =>
      match pivot_key r with
      | Some k => k :: pivot_keys rest
      | None => pivot_keys rest
      end
  end.

Definition in_pivot_group (k : Z * label) (rc : obs * cell) : bool :=
  match pivot_key (fst rc) with
  | Some k' => match pivot_compare k k' with Eq => true | _ => false end
  | None => false
  end.

(** [grouped.agg("mean")]: one entry per group, in key order. *)
Definition agged (df : list (obs * cell)) : list ((Z * label) * cell) :=
  map (fun k => (k, s_mean (map snd (List.filter (in_pivot_group k) df))))
      (sort_uniq pivot_compare (pivot_keys df)).

Definition is_val (c : cell) : bool :=
  match c with Val _ => true | NaN => false end.

(** [agged.dropna(how="all")]: groups whose mean is NaN are dropped. *)
Definition agged_dropna (df : list (obs * cell)) : list ((Z * label) * cell) :=
  List.filter (fun kc => is_val (snd kc)) (agged df).

Fixpoint agg_lookup (k : Z * label) (ag : list ((Z * label) * cell)) : cell :=
  match ag with
  | [] => NaN
  | (k', c) :: rest =>
      match pivot_compare k k' with
      | Eq => c
      | _ => agg_lookup k rest
      end
  end.

(** [pivot_table] with its defaults ([aggfunc="mean"], [dropna=True], no
    fill value): the groups are unstacked into years by labels, holes are
    NaN, and columns that are all NaN are dropped. *)
Definition pivot_table (df : list (obs * cell)) : wide :=
  let ag := agged_dropna df in
  let idx := sort_uniq Z.compare (map (fun kc => fst (fst kc)) ag) in
  let labels := sort_uniq label_compare (map (fun kc => snd (fst kc)) ag) in
  let table := map (fun l => (l, map (fun y => agg_lookup (y, l) ag) idx)) labels in
  {| index := idx;
     columns := List.filter (fun lc => existsb is_val (snd lc)) table |}.

(** The index of [pd.concat(parts, axis=1)]: the years of the parts, each
    once, in order of first appearance. *)
Definition union_index (parts : list wide) : list Z :=
  fold_left (fun acc y => if existsb (Z.eqb y) acc then acc else acc ++ [y])
            (concat (map index parts)) [].

(** [pd.concat(parts, axis=1)]: the columns of the parts side by side, each
    re-indexed on the union of the indexes. *)
Definition concat_axis1 (parts : list wide) : wide :=
  let idx := union_index parts in
  {| index := idx;
     columns :=
       flat_map (fun w =>
                   map (fun lc => (fst lc, map (at_year (index w) (snd lc)) idx))
                       (columns w))
                parts |}.

(** Lines 221-229: [wide_all]. *)
Definition wide_all (indicator_codes : list string) (norm : bool)
    (data : list obs) : wide :=
  concat_axis1
    (map (fun ind => pivot_table (select_indicator ind (with_ycol norm data)))
         indicator_codes).

(** *** Correlation (line 230) *)

Local Open Scope R_scope.

(** The running state of one pair of columns in pandas' [nancorr]
    (Welford's method). *)
Record welford : Type := {
  nobs : nat;
  meanx : R;
  meany : R;
  ssqdm_x : R;
  ssqdm_y : R;
  covxy : R
}.

Definition welford_init : welford :=
  {| nobs := 0; meanx := 0; meany := 0; ssqdm_x := 0; ssqdm_y := 0; covxy := 0 |}.

Definition welford_step (st : welford) (vx vy : R) : welford :=
  let n := S (nobs st) in
  let dx := vx - meanx st in
  let dy := vy - meany st in
  let mx := meanx st + 1 / INR n * dx in
  let my := meany st + 1 / INR n * dy in
  {| nobs := n; meanx := mx; meany := my;
     ssqdm_x := ssqdm_x st + (vx - mx) * dx;
     ssqdm_y := ssqdm_y st + (vy - my) * dy;
     covxy := covxy st + (vx - mx) * dy |}.

(** One pass over the rows; a row counts when both cells are present. *)
Fixpoint welford_run (st : welford) (xs ys : list cell) : welford :=
  match xs, ys with
  | x :: xs', y :: ys' =>
      match x, y with
      | Val vx, Val vy => welford_run (welford_step st vx vy) xs' ys'
      | _, _ => welford_run st xs' ys'
      end
  | _, _ => st
  end.

(** The coefficient of one pair ([min_periods=1]). *)
Definition nancorr (xs ys : list cell) : cell :=
  let st := welford_run welford_init xs ys in
  if (nobs st <? 1)%nat then NaN
  else
    let divisor := sqrt (ssqdm_x st * ssqdm_y st) in
    if Req_dec_T divisor 0 then NaN else Val (covxy st / divisor).

(** [DataFrame.corr()]: the lower triangle is computed and mirrored. *)
Definition corr_cell (w : wide) (i j : nat) : cell :=
  let col k := snd (nth k (columns w) (("", "")%string, [])) in
  if (j <=? i)%nat then nancorr (col i) (col j) else nancorr (col j) (col i).

Definition corr (w : wide) : list (list cell) :=
  map (fun i => map (fun j => corr_cell w i j) (seq 0 (length (columns w))))
      (seq 0 (length (columns w))).

(** [round(2)]: to the nearest multiple of 1/100, ties to the even one. *)
Definition rint (x : R) : Z :=
  let f := Int_part x in
  let d := frac_part x in
  if Rlt_dec d (1 / 2) then f
  else if Rlt_dec (1 / 2) d then (f + 1)%Z
  else if Z.even f then f else (f + 1)%Z.

Definition round2 (c : cell) : cell :=
  match c with
  | Val x => Val (IZR (rint (x * 100)) / 100)
  | NaN => NaN
  end.

(** [wide_all.corr().round(2)] (line 230). *)
Definition displayed_corr (w : wide) : list (list cell) :=
  map (map round2) (corr w).

(** Lines 228-233: the matrix that is displayed, or nothing when no
    indicator is selected. *)
Definition correlation (indicator_codes : list string) (norm : bool)
    (data : list obs) : option (list (list cell)) :=
  match indicator_codes with
  | [] => None
  | _ :: _ => Some (displayed_corr (wide_all indicator_codes norm data))
  end.

(** *** The statistics the specification names *)

(** The pairs of values of the years where both columns are present. *)
Fixpoint joint (xs ys : list cell) : list (R * R) :=
  match xs, ys with
  | x :: xs', y :: ys' =>
      match x, y with
      | Val vx, Val vy => (vx, vy) :: joint xs' ys'
      | _, _ => joint xs' ys'
      end
  | _, _ => []
  end.

(** Pearson's coefficient of a list of pairs: the sum of the products of
    the deviations over the root of the product of the sums of squared
    deviations; undefined (NaN) for no pairs or a zero denominator. *)
Definition pearson (ps : list (R * R)) : cell :=
  let xs := map fst ps in
  let ys := map snd ps in
  let num := rsum (map (fun p => (fst p - mean xs) * (snd p - mean ys)) ps) in
  let den := sqrt (ssd xs * ssd ys) in
  match ps with
  | [] => NaN
  | _ :: _ => if Req_dec_T den 0 then NaN else Val (num / den)
  end.

Local Close Scope R_scope.

(** ** Concrete inputs used by the examples below *)

(** A well-formed page: status 200 and the envelope [[meta, rows]]. *)
Definition page_response (meta : list (string * pyobj)) (rows : list pyobj) : response :=
  Http 200 (Some (PList [PDict meta; PList rows])).

Definition paging (page pages : Z) : list (string * pyobj) :=
  [("page", PInt page); ("pages", PInt pages); ("per_page", PInt 20000)].

(** An API row as the World Bank sends it. *)
Definition api_row (name iso3 code : string) (d v : pyobj) : pyobj :=
  PDict [("indicator", PDict [("id", PStr code); ("value", PStr "")]);
         ("country", PDict [("id", PStr ""); ("value", PStr name)]);
         ("countryiso3code", PStr iso3);
         ("date", d);
         ("value", v)].

Definition usa_gdp (d v : pyobj) : pyobj :=
  api_row "United States" "USA" "NY.GDP.MKTP.KD.ZG" d v.

(** A server with two pages that numbers them as requested. *)
Definition two_page_net : network :=
  fun _ req =>
    match req with
    | (_, _, 1) => page_response (paging 1 2) [usa_gdp (PStr "2019") (PFloat 2.3)]
    | (_, _, p) => page_response (paging p 2) [usa_gdp (PStr "2018") (PFloat 2.9)]
    end.

(** A server that reports two pages in all, but whose second answer still
    carries page number 1. *)
Definition stuck_page (i : nat) : Z :=
  match i with
  | 1%nat | 2%nat => 1
  | _ => 2
  end.

Definition stuck_net : network :=
  fun t _ => page_response (paging (stuck_page (S t)) 2) [usa_gdp (PStr "2020") PNone].

(** A page whose metadata has no [page] field. *)
Definition no_page_net : network :=
  fun _ _ => page_response [("pages", PInt 1); ("per_page", PInt 20000)]
                           [usa_gdp (PStr "2020") (PFloat 1.5)].

(** A page whose metadata is [null]. *)
Definition null_meta_net : network :=
  fun _ _ => Http 200 (Some (PList [PNone; PList [usa_gdp (PStr "2020") (PFloat 1.5)]])).

(** A page whose metadata has no [pages] field. *)
Definition no_pages_net : network :=
  fun _ _ => page_response [("page", PInt 1)] [usa_gdp (PStr "2020") (PFloat 1.5)].

(** The one-character str made of SUPERSCRIPT TWO (U+00B2). *)
Definition superscript_two : string := String (ascii_of_nat 178) EmptyString.

(** A single page with a good row and a row whose year is that str. *)
Definition superscript_year_net : network :=
  fun _ _ => page_response (paging 1 1)
               [usa_gdp (PStr "2019") (PFloat 2.3);
                usa_gdp (PStr superscript_two) (PFloat 2.9)].

(** A server that fails on the first request of the session and answers
    every later one with a single page. *)
Definition flaky_net : network :=
  fun t _ =>
    match t with
    | O => Http 500 None
    | S _ => page_response (paging 1 1) [usa_gdp (PStr "2020") (PFloat 1.5)]
    end.

(** A server that is down. *)
Definition down_net : network := fun _ _ => Http 500 None.

(** A reader of numeric text for the examples: plain decimal numerals. *)
Definition read_decimal (s : string) : option Q :=
  if isdigit s
  then option_map inject_Z (int_of_digits 0 (list_ascii_of_string s))
  else None.

(** Observations of one series of the frame [data]. *)
Definition usa_gdp_obs (year : Z) (v : cell) : obs :=
  {| obs_country := Some "United States"%string;
     obs_countryiso3code := Some "USA"%string;
     obs_indicator := Some "NY.GDP.MKTP.KD.ZG"%string;
     obs_date := year; obs_value := v |}.

(** A series with the values 10, 20, 30 and one missing year. *)
Definition sample_series : list obs :=
  [usa_gdp_obs 2018 (Val 10); usa_gdp_obs 2019 NaN;
   usa_gdp_obs 2020 (Val 20); usa_gdp_obs 2021 (Val 30)].

(** Three series in one frame, their rows interleaved: GDP growth of the
    United States (10, missing, 20, 30), its inflation, and GDP growth of
    Germany. *)
Definition usa_cpi_obs (year : Z) (v : cell) : obs :=
  {| obs_country := Some "United States"%string;
     obs_countryiso3code := Some "USA"%string;
     obs_indicator := Some "FP.CPI.TOTL.ZG"%string;
     obs_date := year; obs_value := v |}.

Definition deu_gdp_obs (year : Z) (v : cell) : obs :=
  {| obs_country := Some "Germany"%string;
     obs_countryiso3code := Some "DEU"%string;
     obs_indicator := Some "NY.GDP.MKTP.KD.ZG"%string;
     obs_date := year; obs_value := v |}.

Definition three_series : list obs :=
  [usa_gdp_obs 2018 (Val 10); usa_cpi_obs 2018 (Val 100); deu_gdp_obs 2018 (Val 7);
   usa_gdp_obs 2019 NaN; deu_gdp_obs 2019 (Val 1000);
   usa_gdp_obs 2020 (Val 20); usa_cpi_obs 2020 (Val 400);
   usa_gdp_obs 2021 (Val 30)].

(** A series with a single present value. *)
Definition single_value_series : list obs :=
  [usa_gdp_obs 2019 NaN; usa_gdp_obs 2020 (Val 5)].

(** A series whose values are all 5. *)
Definition constant_series : list obs :=
  [usa_gdp_obs 2018 (Val 5); usa_gdp_obs 2019 (Val 5); usa_gdp_obs 2020 (Val 5)].

(** A wide table with two columns over five years; the first column has no
    value in the last year. *)
Definition corr_sample : wide :=
  {| index := [2000; 2001; 2002; 2003; 2004];
     columns :=
       [ (("United States", "GDP growth")%string,
          [Val 4; Val 0; Val 0; Val 0; NaN]);
         (("United States", "Inflation, CPI")%string,
          [Val 0; Val 4; Val 0; Val 0; Val 7]) ] |}.

(** * Properties *)

(** ** Helper lemmas on Python comparisons *)

Lemma Qle_bool_inject_Z (a b : Z) :
  Qle_bool (inject_Z a) (inject_Z b) = (a <=? b).
Proof.
  unfold Qle_bool, inject_Z. simpl. rewrite !Z.mul_1_r. reflexivity.
Qed.

Lemma py_ge_int (p ps : Z) : py_ge (PInt p) (PInt ps) = Some (ps <=? p).
Proof. simpl. rewrite Qle_bool_inject_Z. reflexivity. Qed.

Lemma py_get_dict (kvs : list (string * pyobj)) (k : string) (v d : pyobj) :
  assoc k kvs = Some v -> py_get (PDict kvs) k d = Some v.
Proof. intros H. simpl. rewrite H. reflexivity. Qed.

(** ** The page loop *)

Section PageLoop.
Variable net : network.
Variables country_iso3 indicator : string.
(** Requests issued before the fetch starts. *)
Variable t0 : nat.
(** The metadata sequence and the row lists of the pages. *)
Variable meta : nat -> list (string * pyobj).
Variables meta_page meta_pages : nat -> Z.
Variable rows : nat -> list pyobj.

(** The answer to the [i]-th request of the fetch (the loop asks for page
    [i] then) is a well-formed page carrying [meta i] and [rows i]. *)
Definition answered (i : nat) : Prop :=
  net (t0 + i - 1)%nat (country_iso3, indicator, Z.of_nat i)
    = page_response (meta i) (rows i)
  /\ assoc "page" (meta i) = Some (PInt (meta_page i))
  /\ assoc "pages" (meta i) = Some (PInt (meta_pages i)).

(** The loop leaves at page [i]: no rows, or the last page. *)
Definition stops (i : nat) : Prop :=
  rows i = [] \/ meta_pages i <= meta_page i.

Lemma stops_dec (i : nat) : {stops i} + {~ stops i}.
Proof.
  unfold stops. destruct (rows i) as [|r l].
  - left. left. reflexivity.
  - destruct (Z_le_dec (meta_pages i) (meta_page i)).
    + left. right. assumption.
    + right. intros [H|H]; [discriminate | contradiction].
Defined.

Lemma fetch_pages_stop (i : nat) (fuel : nat) (acc : list pyobj) :
  answered i -> stops i ->
  fetch_pages net country_iso3 indicator (S fuel) (t0 + i - 1) (Z.of_nat i) acc
    = (Ok (acc ++ rows i), S (t0 + i - 1)).
Proof.
  intros (Hnet & Hp & Hps) Hstop. cbn [fetch_pages].
  rewrite Hnet. unfold page_response. cbn [Z.eqb Pos.eqb negb truthy].
  destruct (rows i) as [|r l] eqn:Hrows.
  - cbn. rewrite app_nil_r. reflexivity.
  - cbn [negb py_iter].
    rewrite (py_get_dict _ _ _ _ Hp), (py_get_dict _ _ _ _ Hps), py_ge_int.
    destruct Hstop as [Hnil | Hle]; [congruence|].
    apply Z.leb_le in Hle. rewrite Hle. reflexivity.
Qed.

Lemma fetch_pages_continue (i : nat) (fuel : nat) (acc : list pyobj) :
  answered i -> ~ stops i ->
  fetch_pages net country_iso3 indicator (S fuel) (t0 + i - 1) (Z.of_nat i) acc
    = fetch_pages net country_iso3 indicator fuel (S (t0 + i - 1))
                  (Z.of_nat i + 1) (acc ++ rows i).
Proof.
  intros (Hnet & Hp & Hps) Hgo. cbn [fetch_pages].
  rewrite Hnet. unfold page_response. cbn [Z.eqb Pos.eqb negb truthy].
  destruct (rows i) as [|r l] eqn:Hrows.
  - exfalso. apply Hgo. left. assumption.
  - cbn [negb py_iter].
    rewrite (py_get_dict _ _ _ _ Hp), (py_get_dict _ _ _ _ Hps), py_ge_int.
    destruct (meta_pages i <=? meta_page i) eqn:Hle; [|reflexivity].
    exfalso. apply Hgo. right. apply Z.leb_le. assumption.
Qed.

(** From page [i] on, with a stopping page at distance [d]: the loop
    leaves at the first stopping page [n], having appended the rows of
    the pages [i..n]. *)
Lemma fetch_pages_run (d : nat) : forall (i : nat) (acc : list pyobj),
  (1 <= i)%nat ->
  (forall j, (i <= j <= i + d)%nat -> answered j) ->
  stops (i + d) ->
  exists n, (i <= n <= i + d)%nat /\ stops n /\
    forall fuel, (n - i + 1 <= fuel)%nat ->
      fetch_pages net country_iso3 indicator fuel (t0 + i - 1) (Z.of_nat i) acc
        = (Ok (acc ++ concat (map rows (seq i (n - i + 1)))), (t0 + n)%nat).
Proof.
  induction d as [|d IH]; intros i acc Hi Hans Hstop.
  - exists i. rewrite Nat.add_0_r in *. split; [lia|]. split; [assumption|].
    intros fuel Hfuel. destruct fuel as [|fuel]; [lia|].
    rewrite fetch_pages_stop by (auto; apply Hans; lia).
    replace (i - i + 1)%nat with 1%nat by lia. cbn [seq map concat].
    rewrite app_nil_r. f_equal. lia.
  - destruct (stops_dec i) as [Hs | Hgo].
    + exists i. split; [lia|]. split; [assumption|].
      intros fuel Hfuel. destruct fuel as [|fuel]; [lia|].
      rewrite fetch_pages_stop by (auto; apply Hans; lia).
      replace (i - i + 1)%nat with 1%nat by lia. cbn [seq map concat].
      rewrite app_nil_r. f_equal. lia.
    + destruct (IH (S i) (acc ++ rows i)) as (n & Hn & Hsn & Hrun).
      * lia.
      * intros j Hj. apply Hans. lia.
      * replace (S i + d)%nat with (i + S d)%nat by lia. assumption.
      * exists n. split; [lia|]. split; [assumption|].
        intros fuel Hfuel. destruct fuel as [|fuel]; [lia|].
        rewrite fetch_pages_continue by (auto; apply Hans; lia).
        replace (S (t0 + i - 1)) with (t0 + S i - 1)%nat by lia.
        replace (Z.of_nat i + 1) with (Z.of_nat (S i)) by lia.
        rewrite Hrun by lia.
        replace (n - i + 1)%nat with (S (n - S i + 1)) by lia.
        cbn [seq map concat]. rewrite app_assoc. reflexivity.
Qed.

(** C1 (amended).  Let every page up to a page [k] be well formed, with
    metadata whose [pages] is at least its [page] and whose [page] is at
    least the number of the page requested, and let page [k] have
    [page = pages] or no rows.  Then the loop returns after [n] requests,
    for some [n] that is at most [k] and at most the [pages] reported by
    the page it stops on, and it returns the rows of the pages [1..n] in
    order. *)
Theorem pagination_terminates_within_pages (k : nat) :
  (1 <= k)%nat ->
  (forall i, (1 <= i <= k)%nat ->
     answered i /\ meta_page i <= meta_pages i /\ Z.of_nat i <= meta_page i) ->
  (meta_page k = meta_pages k \/ rows k = []) ->
  exists n, (1 <= n <= k)%nat /\ Z.of_nat n <= meta_pages n /\
    forall fuel, (n <= fuel)%nat ->
      fetch_pages net country_iso3 indicator fuel t0 1 []
        = (Ok (concat (map rows (seq 1 n))), (t0 + n)%nat).
Proof.
  intros Hk Hall Hlast.
  destruct (fetch_pages_run (k - 1) 1 []) as (n & Hn & Hsn & Hrun).
  - lia.
  - intros j Hj. apply Hall. lia.
  - replace (1 + (k - 1))%nat with k by lia. unfold stops.
    destruct Hlast as [Heq | Hnil]; [right; lia | left; assumption].
  - exists n. split; [lia|]. split.
    + destruct (Hall n) as (_ & Hle & Hecho); lia.
    + intros fuel Hfuel.
      specialize (Hrun fuel). replace (t0 + 1 - 1)%nat with t0 in Hrun by lia.
      replace (n - 1 + 1)%nat with n in Hrun by lia.
      apply Hrun. lia.
Qed.
End PageLoop.

(** The C1 theorem at a server with two pages, each numbered as requested:
    the loop returns both pages' rows after two requests. *)
Lemma pagination_terminates_two_pages :
  exists n, (1 <= n <= 2)%nat /\ Z.of_nat n <= 2 /\
    forall fuel, (n <= fuel)%nat ->
      fetch_pages two_page_net "USA" "NY.GDP.MKTP.KD.ZG" fuel 0 1 []
        = (Ok (concat (map (fun i => match i with
                                     | 1%nat => [usa_gdp (PStr "2019") (PFloat 2.3)]
                                     | _ => [usa_gdp (PStr "2018") (PFloat 2.9)]
                                     end) (seq 1 n))), (0 + n)%nat).
Proof.
  apply (pagination_terminates_within_pages two_page_net "USA" "NY.GDP.MKTP.KD.ZG" 0
           (fun i => paging (Z.of_nat i) 2) (fun i => Z.of_nat i) (fun _ => 2)
           (fun i => match i with
                     | 1%nat => [usa_gdp (PStr "2019") (PFloat 2.3)]
                     | _ => [usa_gdp (PStr "2018") (PFloat 2.9)]
                     end) 2%nat).
  - lia.
  - intros i Hi. unfold answered.
    destruct i as [|[|[|i]]]; try lia; cbn; repeat split; lia.
  - left. reflexivity.
Defined.

(** C1, counterexample.  Every answer of [stuck_net] is a well-formed page
    whose metadata has [pages = 2 >= page], and the third has
    [page = pages]; yet the loop needs three requests: it returns after
    three, and has not returned after two. *)
Lemma pagination_bound_fails_for_repeated_page_number :
  (forall i, (1 <= i <= 3)%nat ->
     answered stuck_net "USA" "NY.GDP.MKTP.KD.ZG" 0
              (fun i => paging (stuck_page i) 2) stuck_page (fun _ => 2)
              (fun _ => [usa_gdp (PStr "2020") PNone]) i
     /\ stuck_page i <= 2)
  /\ stuck_page 3 = 2
  /\ fetch_pages stuck_net "USA" "NY.GDP.MKTP.KD.ZG" 3 0 1 []
       = (Ok [usa_gdp (PStr "2020") PNone; usa_gdp (PStr "2020") PNone;
              usa_gdp (PStr "2020") PNone], 3%nat)
  /\ fetch_pages stuck_net "USA" "NY.GDP.MKTP.KD.ZG" 2 0 1 [] = (Diverge, 2%nat).
Proof.
  split; [|split; [reflexivity | split; reflexivity]].
  intros i Hi. unfold answered.
  destruct i as [|[|[|[|i]]]]; try lia; cbn; repeat split; lia.
Qed.

(** ** Malformed metadata *)

(** C5, at the failing inputs.  A page with rows whose metadata lacks the
    [page] field makes the comparison of line 86 raise [TypeError]; a page
    with rows whose metadata is [null] makes [meta.get] raise
    [AttributeError].  In both cases the fetch ends with the exception and
    no frame, not with the rows read so far. *)
Theorem malformed_metadata_raises :
  forall (read_number : string -> option Q) (fuel : nat),
    fetch_pages no_page_net "USA" "NY.GDP.MKTP.KD.ZG" (S fuel) 0 1 []
      = (Raise TypeError, 1%nat)
    /\ fetch_series_body no_page_net read_number (S fuel) 0 "USA" "NY.GDP.MKTP.KD.ZG"
      = (Raise TypeError, 1%nat)
    /\ fetch_pages null_meta_net "USA" "NY.GDP.MKTP.KD.ZG" (S fuel) 0 1 []
      = (Raise AttributeError, 1%nat)
    /\ fetch_series_body null_meta_net read_number (S fuel) 0 "USA" "NY.GDP.MKTP.KD.ZG"
      = (Raise AttributeError, 1%nat).
Proof. intros read_number fuel. repeat split; reflexivity. Qed.

(** The sibling cases the loop does handle: a payload that is no list, or a
    list shorter than two, ends the loop with the rows read so far. *)
Lemma short_payload_stops (net : network) (c ind : string) (fuel t : nat)
    (page : Z) (acc : list pyobj) (payload : pyobj) :
  net t (c, ind, page) = Http 200 (Some payload) ->
  (forall m r rest, payload <> PList (m :: r :: rest)) ->
  fetch_pages net c ind (S fuel) t page acc = (Ok acc, S t).
Proof.
  intros Hnet Hshort. cbn [fetch_pages]. rewrite Hnet. cbn [Z.eqb Pos.eqb negb].
  destruct payload as [| | | | |l|]; try reflexivity.
  destruct l as [|m [|r rest]]; try reflexivity.
  exfalso. eapply Hshort. reflexivity.
Qed.

(** A missing [pages] field defaults to 1, so the loop stops after a page
    numbered 1 or more. *)
Lemma missing_pages_stops (fuel : nat) :
  fetch_pages no_pages_net "USA" "NY.GDP.MKTP.KD.ZG" (S fuel) 0 1 []
    = (Ok [usa_gdp (PStr "2020") (PFloat 1.5)], 1%nat).
Proof. reflexivity. Qed.

(** ** Rows of a series *)

(** C10, at the failing input.  SUPERSCRIPT TWO passes [isdigit] and is no
    numeral for [int], so a row whose year is that str raises [ValueError]
    and the whole series fails, although the page also holds a good row. *)
Theorem digit_year_that_is_no_numeral_fails_the_series :
  forall (read_number : string -> option Q) (fuel : nat),
    isdigit superscript_two = true
    /\ py_int (PStr superscript_two) = None
    /\ parse_date (PStr superscript_two) = Raise ValueError
    /\ fetch_series_body superscript_year_net read_number (S fuel) 0
         "USA" "NY.GDP.MKTP.KD.ZG" = (Raise ValueError, 1%nat).
Proof. intros read_number fuel. repeat split; reflexivity. Qed.

(** The parts of the row handling that hold on every input. *)
Section SeriesFrame.
Variable read_number : string -> option Q.

Definition by_year (a b : row) : Prop := date a <= date b.

Lemma insert_by_date_perm (r : row) (l : frame) :
  Permutation (r :: l) (insert_by_date r l).
Proof.
  induction l as [|x l IH]; cbn [insert_by_date].
  - constructor; constructor.
  - destruct (date r <=? date x).
    + apply Permutation_refl.
    + eapply perm_trans; [apply perm_swap|]. constructor. exact IH.
Qed.

Lemma insert_by_date_sorted (r : row) (l : frame) :
  Sorted by_year l -> Sorted by_year (insert_by_date r l).
Proof.
  induction l as [|x l IH]; intros Hs; cbn [insert_by_date].
  - repeat constructor.
  - destruct (date r <=? date x) eqn:Hle.
    + constructor; [assumption|]. constructor. apply Z.leb_le. assumption.
    + apply Z.leb_gt in Hle. inversion Hs as [|? ? Hs' Hhd]; subst.
      constructor; [apply IH; assumption|].
      destruct l as [|y l]; cbn [insert_by_date].
      * constructor. unfold by_year. lia.
      * destruct (date r <=? date y).
        -- constructor. unfold by_year. lia.
        -- inversion Hhd; subst. constructor. assumption.
Qed.

(** [sort_values("date")] orders the rows by year and keeps them all. *)
Lemma sort_values_date_sorted (df : frame) : Sorted by_year (sort_values_date df).
Proof.
  induction df as [|r df IH]; cbn [sort_values_date].
  - constructor.
  - apply insert_by_date_sorted. exact IH.
Qed.

Lemma sort_values_date_perm (df : frame) : Permutation df (sort_values_date df).
Proof.
  induction df as [|r df IH]; cbn [sort_values_date].
  - constructor.
  - eapply perm_trans; [|apply insert_by_date_perm]. constructor. exact IH.
Qed.

(** Every frame the body builds is in ascending order of year. *)
Lemma frame_of_rows_sorted (all_rows : list pyobj) (df : frame) :
  frame_of_rows read_number all_rows = Ok df -> Sorted by_year df.
Proof.
  unfold frame_of_rows. destruct all_rows as [|r rest].
  - intros [= <-]. constructor.
  - destruct (make_records (r :: rest)); intros [= <-].
    apply sort_values_date_sorted.
Qed.

(** A row of the frame stems from a record whose year was read, and its
    value is that record's value through [to_numeric]. *)
Lemma dropna_date_In (recs : list record) (r : row) :
  In r (dropna_date read_number recs) <->
  exists x, In x recs /\ rec_date x = Some (date r)
    /\ r = {| country := rec_country x; countryiso3code := rec_countryiso3code x;
              indicator := rec_indicator x; date := date r;
              value := to_numeric read_number (rec_value x) |}.
Proof.
  induction recs as [|x recs IH]; cbn [dropna_date].
  - split; [intros [] | intros (x & [] & _)].
  - destruct (rec_date x) as [d|] eqn:Hd.
    + split.
      * intros [<- | Hin].
        -- exists x. cbn. auto.
        -- apply IH in Hin as (y & Hy & H). exists y. cbn. auto.
      * intros (y & [<- | Hy] & Hdy & Hr).
        -- left. rewrite Hr. rewrite Hd in Hdy. injection Hdy as ->. reflexivity.
        -- right. apply IH. exists y. auto.
    + rewrite IH. split.
      * intros (y & Hy & H). exists y. cbn. auto.
      * intros (y & [<- | Hy] & Hdy & Hr); [congruence|]. exists y. auto.
Qed.

(** A year that is no digit str (or is empty, zero, [None]) is read as
    missing without an exception, so [dropna] drops the row. *)
Lemma parse_date_not_digit (d : pyobj) :
  truthy d && str_isdigit d = false -> parse_date d = Ok None.
Proof. intros H. unfold parse_date. rewrite H. reflexivity. Qed.

Lemma int_of_digits_decimal (cs : list ascii) : forall acc,
  forallb is_decimal cs = true -> exists z, int_of_digits acc cs = Some z.
Proof.
  induction cs as [|c cs IH]; intros acc H; cbn in *.
  - eauto.
  - apply andb_true_iff in H as [Hc Hcs]. rewrite Hc. apply IH. assumption.
Qed.

(** A non-empty str of decimal digits, no longer than the cap of [int], is
    read as a year. *)
Lemma parse_date_decimal (s : string) :
  s <> ""%string -> forallb is_decimal (list_ascii_of_string s) = true ->
  Z.of_nat (String.length s) <= int_max_str_digits ->
  exists z, parse_date (PStr s) = Ok (Some z).
Proof.
  intros Hne Hdec Hcap. apply Z.leb_le in Hcap.
  unfold parse_date. cbn [truthy str_isdigit py_int]. rewrite Hcap.
  assert (Hd : isdigit s = true).
  { unfold isdigit. apply andb_true_iff. split.
    - apply negb_true_iff. apply String.eqb_neq. assumption.
    - apply forallb_forall. intros c Hc.
      rewrite forallb_forall in Hdec. unfold is_digit.
      rewrite (Hdec c Hc). reflexivity. }
  rewrite Hd. replace (negb (String.eqb s "")) with true.
  - cbn. destruct (int_of_digits_decimal (list_ascii_of_string s) 0 Hdec) as (z & ->).
    eauto.
  - symmetry. apply negb_true_iff. apply String.eqb_neq. assumption.
Qed.

(** A value that is [null], or text that the reader rejects, becomes NaN:
    not zero, and no exception. *)
Lemma to_numeric_absent (v : pyobj) :
  v = PNone \/ (exists s, v = PStr s /\ read_number s = None) ->
  to_numeric read_number v = None.
Proof. intros [-> | (s & -> & H)]; cbn; auto. Qed.
End SeriesFrame.

(** ** The series cache *)

Section SeriesCache.
Variable net : network.
Variable read_number : string -> option Q.
Variable fuel : nat.

(** A call on a stored key returns the stored frame and leaves the
    session as it is: no request, no run of the body. *)
Lemma wb_fetch_series_hit (c ind : string) (s : session) (df : frame) :
  series_cache s !! (c, ind) = Some df ->
  wb_fetch_series net read_number fuel c ind s = (Ok df, s).
Proof. intros H. unfold wb_fetch_series. rewrite H. reflexivity. Qed.

(** A call that returns a frame leaves it stored under its key. *)
Lemma wb_fetch_series_stores (c ind : string) (s s1 : session) (df : frame) :
  wb_fetch_series net read_number fuel c ind s = (Ok df, s1) ->
  series_cache s1 !! (c, ind) = Some df.
Proof.
  unfold wb_fetch_series.
  destruct (series_cache s !! (c, ind)) as [df0|] eqn:Hlook.
  - intros [= <- <-]. assumption.
  - destruct (fetch_series_body net read_number fuel (clock s) c ind) as [[df1|e|] t'];
      intros [= <- <-]. cbn. apply lookup_insert_eq.
Qed.

(** C8 (amended).  When a call returns a frame, the next call with the
    same key returns the same frame and leaves the session unchanged, so
    the two calls run the body at most once.  When a call raises,
    nothing is stored for the key, and the next call runs the body
    again. *)
Theorem cache_second_call (c ind : string) (s : session) :
  match wb_fetch_series net read_number fuel c ind s with
  | (Ok df, s1) =>
      wb_fetch_series net read_number fuel c ind s1 = (Ok df, s1)
      /\ (length (fetches s1) <= length (fetches s) + 1)%nat
  | (Raise e, s1) =>
      series_cache s1 !! (c, ind) = None
      /\ fetches s1 = fetches s ++ [(c, ind)]
      /\ fetches (snd (wb_fetch_series net read_number fuel c ind s1))
         = fetches s ++ [(c, ind); (c, ind)]
  | (Diverge, _) => True
  end.
Proof.
  destruct (wb_fetch_series net read_number fuel c ind s) as [[df|e|] s1] eqn:Hcall;
    [| |exact I].
  - split.
    + apply wb_fetch_series_hit. eapply wb_fetch_series_stores. eassumption.
    + revert Hcall. unfold wb_fetch_series.
      destruct (series_cache s !! (c, ind)) as [df0|].
      * intros [= <- <-]. lia.
      * destruct (fetch_series_body net read_number fuel (clock s) c ind)
          as [[df1|e|] t']; intros [= <- <-]. cbn. rewrite length_app. cbn. lia.
  - revert Hcall. unfold wb_fetch_series at 1.
    destruct (series_cache s !! (c, ind)) as [df0|] eqn:Hlook; [discriminate|].
    destruct (fetch_series_body net read_number fuel (clock s) c ind)
      as [[df1|e1|] t'] eqn:Hbody; intros [= <- <-].
    cbn [series_cache fetches]. split; [assumption|]. split; [reflexivity|].
    unfold wb_fetch_series. cbn [series_cache fetches clock]. rewrite Hlook.
    destruct (fetch_series_body net read_number fuel t' c ind) as [[df2|e2|] t''];
      cbn [snd fetches]; rewrite <- app_assoc; reflexivity.
Qed.
End SeriesCache.

(** C8, counterexample.  With the server down, two calls in a row for one
    key both raise and both run the body (two runs, two requests).  With a
    server that fails once, the first call raises and the second returns a
    frame: the second call did not return the first call's outcome. *)
Lemma failed_fetch_is_not_stored :
  let call net := wb_fetch_series net read_decimal 5 "USA" "NY.GDP.MKTP.KD.ZG" in
  let s1 := snd (call down_net new_session) in
  let s2 := snd (call down_net s1) in
  fst (call down_net new_session) = Raise (RuntimeError 500)
  /\ fst (call down_net s1) = Raise (RuntimeError 500)
  /\ fetches s2 = [("USA", "NY.GDP.MKTP.KD.ZG"); ("USA", "NY.GDP.MKTP.KD.ZG")]%string
  /\ clock s2 = 2%nat
  /\ fst (call flaky_net new_session) = Raise (RuntimeError 500)
  /\ exists df, fst (call flaky_net (snd (call flaky_net new_session))) = Ok df.
Proof.
  cbv zeta. repeat split; try reflexivity.
  eexists. vm_compute. reflexivity.
Qed.

(** ** The batch *)

Section Aggregator.
Variable net : network.
Variable read_number : string -> option Q.
Variable fuel : nat.

Lemma set_warnings_twice (w1 w2 : list warning) (s : session) :
  set_warnings w1 (set_warnings w2 s) = set_warnings w1 s.
Proof. reflexivity. Qed.

Lemma set_warnings_same (s : session) : set_warnings (warnings s) s = s.
Proof. destruct s. reflexivity. Qed.

(** The cached fetch neither reads nor writes the messages. *)
Lemma wb_fetch_series_set_warnings (c ind : string) (w : list warning) (s : session) :
  wb_fetch_series net read_number fuel c ind (set_warnings w s)
  = (fst (wb_fetch_series net read_number fuel c ind s),
     set_warnings w (snd (wb_fetch_series net read_number fuel c ind s))).
Proof.
  unfold wb_fetch_series, set_warnings. cbn [series_cache clock fetches multi_cache].
  destruct (series_cache s !! (c, ind)); [reflexivity|].
  destruct (fetch_series_body net read_number fuel (clock s) c ind) as [[df|e|] t'];
    reflexivity.
Qed.

Lemma wb_fetch_series_warnings (c ind : string) (s : session) :
  warnings (snd (wb_fetch_series net read_number fuel c ind s)) = warnings s.
Proof.
  unfold wb_fetch_series.
  destruct (series_cache s !! (c, ind)); [reflexivity|].
  destruct (fetch_series_body net read_number fuel (clock s) c ind) as [[df|e|] t'];
    reflexivity.
Qed.

Lemma run_pairs_warnings (pairs : list (string * string)) : forall s,
  warnings (snd (run_pairs net read_number fuel pairs s)) = warnings s.
Proof.
  induction pairs as [|[c ind] rest IH]; intros s; cbn [run_pairs].
  - reflexivity.
  - pose proof (wb_fetch_series_warnings c ind s) as Hw.
    destruct (wb_fetch_series net read_number fuel c ind s) as [r s1].
    specialize (IH s1).
    destruct (run_pairs net read_number fuel rest s1) as [tr s2].
    cbn in *. congruence.
Qed.

(** One turn of the inner loop (lines 115-118). *)
Definition attempt (c ind : string) (frames : list frame) : M (list frame) :=
  try_except
    (let* df := wb_fetch_series net read_number fuel c ind in
     ret (frames ++ [df]))
    (fun e => let* _ := st_warning (ind, c, e) in ret frames).

Lemma for_each_app {A S : Type} (body : A -> S -> M S) (xs ys : list A) :
  forall (acc : S) (s : session),
    for_each (xs ++ ys) body acc s
    = bind (for_each xs body acc) (for_each ys body) s.
Proof.
  induction xs as [|x xs IH]; intros acc s; cbn [for_each app].
  - reflexivity.
  - unfold bind in *. destruct (body x acc s) as [[acc'|e|] s']; try reflexivity.
    apply IH.
Qed.

Lemma for_each_map {A B S : Type} (f : A -> B) (body : B -> S -> M S) (xs : list A) :
  forall (acc : S) (s : session),
    for_each (map f xs) body acc s = for_each xs (fun x => body (f x)) acc s.
Proof.
  induction xs as [|x xs IH]; intros acc s; cbn [for_each map].
  - reflexivity.
  - unfold bind. destruct (body (f x) acc s) as [[acc'|e|] s']; try reflexivity.
    apply IH.
Qed.

(** The two nested loops visit the pairs of [list_prod] in order. *)
Lemma nested_loops_flat (countries_iso3 indicators : list string) :
  forall (frames : list frame) (s : session),
    for_each countries_iso3
      (fun c frames => for_each indicators (fun ind frames => attempt c ind frames) frames)
      frames s
    = for_each (list_prod countries_iso3 indicators)
        (fun p frames => attempt (fst p) (snd p) frames) frames s.
Proof.
  induction countries_iso3 as [|c cs IH]; intros frames s; cbn [for_each list_prod].
  - reflexivity.
  - rewrite for_each_app. unfold bind.
    rewrite for_each_map. cbn [fst snd].
    destruct (for_each indicators (fun ind frames0 => attempt c ind frames0) frames s)
      as [[acc'|e|] s']; try reflexivity.
    apply IH.
Qed.

Lemma attempt_spec (c ind : string) (frames : list frame) (w : list warning)
    (s : session) :
  attempt c ind frames (set_warnings w s)
  = match wb_fetch_series net read_number fuel c ind s with
    | (Ok df, s1) => (Ok (frames ++ [df]), set_warnings w s1)
    | (Raise e, s1) => (Ok frames, set_warnings (w ++ [(ind, c, e)]) s1)
    | (Diverge, s1) => (Diverge, set_warnings w s1)
    end.
Proof.
  unfold attempt, try_except, bind. rewrite wb_fetch_series_set_warnings.
  destruct (wb_fetch_series net read_number fuel c ind s) as [[df|e|] s1];
    reflexivity.
Qed.

(** The flat loop against the account of [run_pairs]. *)
Lemma flat_loop (pairs : list (string * string)) :
  forall (frames : list frame) (w : list warning) (s : session),
    let tr := fst (run_pairs net read_number fuel pairs s) in
    let s2 := snd (run_pairs net read_number fuel pairs s) in
    let loop := for_each pairs (fun p frames => attempt (fst p) (snd p) frames)
                  frames (set_warnings w s) in
    if diverged tr then fst loop = Diverge
    else loop = (Ok (frames ++ successes tr), set_warnings (w ++ failures tr) s2).
Proof.
  induction pairs as [|[c ind] rest IH]; intros frames w s; cbn [run_pairs for_each].
  - cbn. rewrite !app_nil_r. reflexivity.
  - unfold bind. cbn [fst snd]. rewrite attempt_spec.
    destruct (wb_fetch_series net read_number fuel c ind s) as [r s1].
    destruct r as [df|e|].
    + specialize (IH (frames ++ [df]) w s1).
      destruct (run_pairs net read_number fuel rest s1) as [tr s2].
      cbn [fst snd successes failures diverged] in *.
      destruct (diverged tr); [exact IH|].
      rewrite IH, <- app_assoc. reflexivity.
    + specialize (IH frames (w ++ [(ind, c, e)]) s1).
      destruct (run_pairs net read_number fuel rest s1) as [tr s2].
      cbn [fst snd successes failures diverged] in *.
      destruct (diverged tr); [exact IH|].
      rewrite IH, <- app_assoc. reflexivity.
    + destruct (run_pairs net read_number fuel rest s1) as [tr s2]. reflexivity.
Qed.

Lemma successes_all_raise (tr : list ((string * string) * outcome frame)) :
  (forall k r, In (k, r) tr -> exists e, r = Raise e) ->
  successes tr = [] /\ length (failures tr) = length tr.
Proof.
  induction tr as [|[[c ind] r] tr IH]; intros Hall; cbn.
  - auto.
  - destruct (Hall (c, ind) r) as (e & ->); [left; reflexivity|].
    destruct IH as [Hs Hf]; [intros k r Hin; eapply Hall; right; eassumption|].
    cbn. split; [assumption | congruence].
Qed.

Lemma run_pairs_length (pairs : list (string * string)) : forall s,
  length (fst (run_pairs net read_number fuel pairs s)) = length pairs.
Proof.
  induction pairs as [|[c ind] rest IH]; intros s; cbn [run_pairs].
  - reflexivity.
  - destruct (wb_fetch_series net read_number fuel c ind s) as [r s1].
    specialize (IH s1).
    destruct (run_pairs net read_number fuel rest s1) as [tr s2].
    cbn in *. congruence.
Qed.

(** The body of [wb_fetch_multi] never raises: unless a fetch diverges, it
    returns the rows of the frames that were fetched, in order, and has
    shown one message per pair that raised. *)
Lemma fetch_multi_body_spec (countries_iso3 indicators : list string) (s : session) :
  let tr := fst (run_pairs net read_number fuel (list_prod countries_iso3 indicators) s) in
  let s2 := snd (run_pairs net read_number fuel (list_prod countries_iso3 indicators) s) in
  if diverged tr
  then fst (fetch_multi_body net read_number fuel countries_iso3 indicators s) = Diverge
  else fetch_multi_body net read_number fuel countries_iso3 indicators s
       = (Ok (concat (successes tr)), set_warnings (warnings s ++ failures tr) s2).
Proof.
  cbv zeta.
  pose proof (nested_loops_flat countries_iso3 indicators [] s) as Hflat.
  pose proof (flat_loop (list_prod countries_iso3 indicators) [] (warnings s) s) as Hloop.
  cbv zeta in Hloop. rewrite set_warnings_same, <- Hflat in Hloop.
  unfold attempt in Hloop. clear Hflat.
  destruct (diverged (fst (run_pairs net read_number fuel
                             (list_prod countries_iso3 indicators) s)));
    unfold fetch_multi_body; unfold bind at 1.
  - destruct (for_each _ _ _ s) as [[fr|e|] s']; cbn in Hloop; try discriminate.
    reflexivity.
  - rewrite Hloop. cbn [app].
    destruct (successes _) as [|df dfs]; reflexivity.
Qed.
(** C2.  A call of [wb_fetch_multi] never raises.  On a stored batch it
    returns the stored frame and shows the stored messages again.
    Otherwise, unless a fetch diverges, it returns the rows of all the
    frames that were fetched, in order, and shows one message per pair
    that raised; if every pair raised, it returns no row and has shown
    one message per pair of the batch. *)
Theorem partial_failure_tolerance (countries_iso3 indicators : list string)
    (s : session) :
  let tr := fst (run_pairs net read_number fuel (list_prod countries_iso3 indicators) s) in
  let out := wb_fetch_multi net read_number fuel countries_iso3 indicators s in
  (forall e, fst out <> Raise e)
  /\ match multi_cache s !! (countries_iso3, indicators) with
     | Some (df, msgs) => out = (Ok df, set_warnings (warnings s ++ msgs) s)
     | None =>
         if diverged tr then fst out = Diverge
         else fst out = Ok (concat (successes tr))
              /\ warnings (snd out) = warnings s ++ failures tr
              /\ ((forall k r, In (k, r) tr -> exists e, r = Raise e) ->
                  concat (successes tr) = []
                  /\ length (failures tr)
                     = (length countries_iso3 * length indicators)%nat)
     end.
Proof.
  cbv zeta. unfold wb_fetch_multi.
  pose proof (fetch_multi_body_spec countries_iso3 indicators s) as Hbody.
  cbv zeta in Hbody.
  destruct (multi_cache s !! (countries_iso3, indicators)) as [[df msgs]|].
  - split; [intros e; discriminate | reflexivity].
  - destruct (diverged (fst (run_pairs net read_number fuel
                               (list_prod countries_iso3 indicators) s))).
    + destruct (fetch_multi_body net read_number fuel countries_iso3 indicators s)
        as [[df|e|] s']; cbn in Hbody; try discriminate.
      split; [intros e; discriminate | reflexivity].
    + rewrite Hbody. cbn [fst snd warnings set_warnings].
      split; [intros e; discriminate|].
      split; [reflexivity|]. split; [reflexivity|].
      intros Hall. apply successes_all_raise in Hall as [Hs Hf].
      rewrite Hs, Hf, run_pairs_length, length_prod. split; reflexivity.
Qed.
End Aggregator.

(** A batch in which the first fetch fails and the second succeeds: the
    rows of the second are returned and one message is shown for the
    first. *)
Example batch_with_one_failure :
  let out := wb_fetch_multi flaky_net read_decimal 5 ["USA"]
               ["FP.CPI.TOTL.ZG"; "NY.GDP.MKTP.KD.ZG"]%string new_session in
  fst out = Ok [ {| country := PStr "United States"; countryiso3code := PStr "USA";
                    indicator := PStr "NY.GDP.MKTP.KD.ZG"; date := 2020;
                    value := Some 1.5%Q |} ]
  /\ warnings (snd out) = [("FP.CPI.TOTL.ZG", "USA", RuntimeError 500)]%string.
Proof. cbv zeta. split; vm_compute; reflexivity. Qed.

(** A batch in which every fetch fails: no row, one message per pair, and
    no exception. *)
Example batch_with_all_failures :
  let out := wb_fetch_multi down_net read_decimal 5 ["USA"; "DEU"]%string
               ["NY.GDP.MKTP.KD.ZG"]%string new_session in
  fst out = Ok []
  /\ warnings (snd out)
     = [("NY.GDP.MKTP.KD.ZG", "USA", RuntimeError 500);
        ("NY.GDP.MKTP.KD.ZG", "DEU", RuntimeError 500)]%string.
Proof. cbv zeta. split; vm_compute; reflexivity. Qed.

(** ** The year filter *)

(** C9.  The filter keeps a row exactly when its year lies between the two
    bounds, both included; the rows kept are rows of the input, unchanged
    and in their order. *)
Theorem year_filter_keeps_range (min_year max_year : Z) (data : list obs) :
  (forall r, In r (year_filter min_year max_year data)
             <-> In r data /\ min_year <= obs_date r <= max_year)
  /\ year_filter min_year max_year [] = []
  /\ (forall r rest,
        year_filter min_year max_year (r :: rest)
        = if (min_year <=? obs_date r) && (obs_date r <=? max_year)
          then r :: year_filter min_year max_year rest
          else year_filter min_year max_year rest)
  /\ (forall r rest, min_year <= obs_date r <= max_year ->
        year_filter min_year max_year (r :: rest)
        = r :: year_filter min_year max_year rest)
  /\ (forall r rest, ~ (min_year <= obs_date r <= max_year) ->
        year_filter min_year max_year (r :: rest)
        = year_filter min_year max_year rest).
Proof.
  assert (Hmask : forall r, year_mask min_year max_year r = true
                            <-> min_year <= obs_date r <= max_year).
  { intros r. unfold year_mask. rewrite andb_true_iff, !Z.leb_le. tauto. }
  split; [|split; [reflexivity|split; [reflexivity|split]]].
  - intros r. unfold year_filter. rewrite List.filter_In, Hmask. tauto.
  - intros r rest Hin. unfold year_filter. cbn [List.filter].
    apply Hmask in Hin. rewrite Hin. reflexivity.
  - intros r rest Hout. unfold year_filter. cbn [List.filter].
    destruct (year_mask min_year max_year r) eqn:Hm; [|reflexivity].
    apply Hmask in Hm. contradiction.
Qed.

(** ** Normalisation *)

Section Normalisation.
Local Open Scope R_scope.

Lemma group_app (a b : list obs) (k : string * string) :
  group (a ++ b) k = group a k ++ group b k.
Proof. unfold group. apply List.filter_app. Qed.

Lemma same_key_of_group_key (r : obs) (k : string * string) :
  group_key r = Some k -> same_key k r = true.
Proof.
  unfold same_key. intros ->. destruct k as [c i]. cbn.
  rewrite !String.eqb_refl. reflexivity.
Qed.

(** The cell that [transform] writes at a row: the item of the group's
    result at the rank of the row in its group. *)
Lemma scatter_nth (f : list cell -> list cell) (data : list obs) :
  forall (rest seen : list obs) (i : nat) (r : obs),
    nth_error rest i = Some r ->
    nth i (scatter f data seen rest) NaN
    = match group_key r with
      | None => NaN
      | Some k =>
          nth (length (group (seen ++ firstn i rest) k))
              (f (map obs_value (group data k))) NaN
      end.
Proof.
  induction rest as [|x rest IH]; intros seen i r Hnth.
  - destruct i; discriminate.
  - destruct i as [|i]; cbn [scatter nth firstn].
    + injection Hnth as ->. rewrite app_nil_r. reflexivity.
    + cbn in Hnth. rewrite (IH _ _ _ Hnth).
      replace ((seen ++ [x]) ++ firstn i rest) with (seen ++ x :: firstn i rest)
        by (rewrite <- app_assoc; reflexivity).
      reflexivity.
Qed.

(** The value of a row sits in its group's series at the row's rank. *)
Lemma group_rank (data : list obs) (i : nat) (r : obs) (k : string * string) :
  nth_error data i = Some r -> group_key r = Some k ->
  nth (length (group (firstn i data) k)) (map obs_value (group data k)) NaN
  = obs_value r.
Proof.
  intros Hnth Hk.
  apply nth_error_split in Hnth as (pre & post & -> & <-).
  rewrite firstn_app, Nat.sub_diag, firstn_all. cbn [firstn]. rewrite app_nil_r.
  rewrite group_app. unfold group at 3. cbn [List.filter].
  rewrite (same_key_of_group_key _ _ Hk). fold (group post k).
  rewrite map_app, app_nth2; rewrite length_map; [|lia].
  rewrite Nat.sub_diag. reflexivity.
Qed.

(** One cell of the column [value_norm]. *)
Lemma value_norm_nth (data : list obs) (i : nat) (r : obs) (k : string * string) :
  nth_error data i = Some r -> group_key r = Some k ->
  let s := map obs_value (group data k) in
  nth i (value_norm data) NaN
  = cdiv (csub (obs_value r) (s_mean s))
         (if negb (in_0_None (s_std s)) then s_std s else Val 1).
Proof.
  intros Hnth Hk s. unfold value_norm, transform.
  rewrite (scatter_nth _ _ _ _ _ _ Hnth), Hk. cbn [app].
  unfold zscore. fold s.
  set (g := fun v => cdiv (csub v (s_mean s))
                          (if negb (in_0_None (s_std s)) then s_std s else Val 1)).
  change NaN with (g NaN) at 1. rewrite map_nth. unfold g, s.
  rewrite (group_rank _ _ _ _ Hnth Hk). reflexivity.
Qed.

(** A row in no group gets NaN. *)
Lemma value_norm_no_group (data : list obs) (i : nat) (r : obs) :
  nth_error data i = Some r -> group_key r = None ->
  nth i (value_norm data) NaN = NaN.
Proof.
  intros Hnth Hk. unfold value_norm, transform.
  rewrite (scatter_nth _ _ _ _ _ _ Hnth), Hk. reflexivity.
Qed.

(** The mean of a series is the mean of its present values. *)
Lemma s_mean_present (s : list cell) :
  (2 <= length (present s))%nat -> s_mean s = Val (mean (present s)).
Proof.
  unfold s_mean. destruct (present s); cbn; [lia | reflexivity].
Qed.

(** The groups of [transform] are the groups of the specification. *)
Lemma group_sharing (c ind : string) (data : list obs) :
  group data (c, ind) = sharing c ind data.
Proof.
  unfold group, sharing. apply List.filter_ext. intros r.
  unfold same_key, group_key. cbn [fst snd].
  destruct (obs_countryiso3code r) as [c'|], (obs_indicator r) as [i'|].
  - destruct (String.eqb_spec c c') as [<-|Hc], (String.eqb_spec ind i') as [<-|Hi];
      cbn [andb]; symmetry.
    + apply bool_decide_eq_true. split; reflexivity.
    + apply bool_decide_eq_false. intros [_ [= H]]. congruence.
    + apply bool_decide_eq_false. intros [[= H] _]. congruence.
    + apply bool_decide_eq_false. intros [[= H] _]. congruence.
  - symmetry. apply bool_decide_eq_false. intros [_ H]. discriminate.
  - symmetry. apply bool_decide_eq_false. intros [H _]. discriminate.
  - symmetry. apply bool_decide_eq_false. intros [H _]. discriminate.
Qed.

Lemma sharing_In (c ind : string) (data : list obs) (r : obs) :
  In r (sharing c ind data)
  <-> In r data /\ obs_countryiso3code r = Some c /\ obs_indicator r = Some ind.
Proof.
  unfold sharing. rewrite List.filter_In, bool_decide_eq_true. reflexivity.
Qed.

(** C3.  Take a row of the frame, with country code [c] and indicator code
    [ind], and the observations of the frame that share both codes, which
    are exactly the rows of the frame with these two codes.  If the
    standard deviation of their values is a nonzero number, the normalised
    cell of the row is [(value - mean) / std] when its value is present and
    absent when it is absent; mean and standard deviation are those of the
    present values of these observations, of which there are at least
    two. *)
Theorem zscore_of_group (data : list obs) (i : nat) (r : obs)
    (c ind : string) (sd : R) :
  nth_error data i = Some r ->
  obs_countryiso3code r = Some c ->
  obs_indicator r = Some ind ->
  s_std (map obs_value (sharing c ind data)) = Val sd ->
  sd <> 0 ->
  let xs := present (map obs_value (sharing c ind data)) in
  nth i (value_norm data) NaN
    = match obs_value r with
      | Val v => Val ((v - mean xs) / sd)
      | NaN => NaN
      end
  /\ sd = sqrt (ssd xs / (INR (length xs) - 1))
  /\ (2 <= length xs)%nat
  /\ (forall r', In r' (sharing c ind data)
        <-> In r' data /\ obs_countryiso3code r' = Some c
            /\ obs_indicator r' = Some ind).
Proof.
  intros Hnth Hc Hind Hsd Hnz xs.
  assert (Hk : group_key r = Some (c, ind)).
  { unfold group_key. rewrite Hc, Hind. reflexivity. }
  assert (Hlen : (2 <= length xs)%nat /\ sd = sqrt (ssd xs / (INR (length xs) - 1))).
  { unfold s_std in Hsd. fold xs in Hsd.
    destruct (length xs <? 2)%nat eqn:Hlt; [discriminate|].
    apply Nat.ltb_ge in Hlt. injection Hsd as <-. split; [assumption | reflexivity]. }
  destruct Hlen as [Hlen Hdef].
  split; [|split; [assumption | split; [assumption | intros r'; apply sharing_In]]].
  rewrite (value_norm_nth _ _ _ _ Hnth Hk). cbv zeta.
  rewrite group_sharing, Hsd, (s_mean_present _ Hlen). fold xs.
  unfold in_0_None. destruct (Req_dec_T sd 0) as [Hz|_]; [contradiction|].
  cbn [negb]. destruct (obs_value r) as [v|]; cbn [csub cdiv]; [|reflexivity].
  destruct (Req_dec_T sd 0) as [Hz|_]; [contradiction | reflexivity].
Qed.
End Normalisation.

(** The C3 theorem at the last row of [three_series], the value 30 of
    GDP growth of the United States.  The rows that share its codes hold
    10, (missing), 20, 30: the mean is 20, the standard deviation 10, and the
    cell is [(30 - 20) / 10], whatever the rows of the other two series
    hold. *)
Lemma zscore_of_sample_series :
  let members := [usa_gdp_obs 2018 (Val 10); usa_gdp_obs 2019 NaN;
                  usa_gdp_obs 2020 (Val 20); usa_gdp_obs 2021 (Val 30)] in
  sharing "USA" "NY.GDP.MKTP.KD.ZG" three_series = members
  /\ (nth 7 (value_norm three_series) NaN = Val ((30 - mean [10; 20; 30]%R) / 10)
      /\ 10%R = sqrt (ssd [10; 20; 30]%R / (INR 3 - 1))
      /\ (2 <= 3)%nat
      /\ (forall r', In r' (sharing "USA" "NY.GDP.MKTP.KD.ZG" three_series)
            <-> In r' three_series /\ obs_countryiso3code r' = Some "USA"%string
                /\ obs_indicator r' = Some "NY.GDP.MKTP.KD.ZG"%string)).
Proof.
  cbv zeta. split; [reflexivity|].
  apply (zscore_of_group three_series 7 (usa_gdp_obs 2021 (Val 30))
           "USA" "NY.GDP.MKTP.KD.ZG" 10%R).
  - reflexivity.
  - reflexivity.
  - reflexivity.
  - change (map obs_value (sharing "USA" "NY.GDP.MKTP.KD.ZG" three_series))
      with [Val 10; NaN; Val 20; Val 30].
    unfold s_std. cbn [present length Nat.ltb Nat.leb]. f_equal.
    transitivity (sqrt (10 * 10)); [|apply sqrt_square; lra]. f_equal.
    unfold ssd, mean, rsum. cbn [map fold_right length INR]. field.
  - lra.
Defined.

Section DegenerateGroups.
Local Open Scope R_scope.

(** A group with fewer than two present values has NaN for standard
    deviation; NaN is neither [0] nor [None], so it is the divisor and
    every normalised cell of the group is NaN. *)
Lemma few_values_group (data : list obs) (i : nat) (r : obs) (k : string * string) :
  nth_error data i = Some r ->
  group_key r = Some k ->
  (length (present (map obs_value (group data k))) < 2)%nat ->
  nth i (value_norm data) NaN = NaN.
Proof.
  intros Hnth Hk Hfew. rewrite (value_norm_nth _ _ _ _ Hnth Hk). cbv zeta.
  unfold s_std. apply Nat.ltb_lt in Hfew. rewrite Hfew. cbn [in_0_None negb].
  destruct (csub _ _); reflexivity.
Qed.

(** A group whose standard deviation is zero is divided by 1. *)
Lemma zero_deviation_group (data : list obs) (i : nat) (r : obs) (k : string * string) :
  nth_error data i = Some r ->
  group_key r = Some k ->
  s_std (map obs_value (group data k)) = Val 0 ->
  nth i (value_norm data) NaN
  = match obs_value r with
    | Val v => Val ((v - mean (present (map obs_value (group data k)))) / 1)
    | NaN => NaN
    end.
Proof.
  intros Hnth Hk Hsd. rewrite (value_norm_nth _ _ _ _ Hnth Hk). cbv zeta.
  rewrite Hsd. unfold in_0_None.
  destruct (Req_dec_T 0 0) as [_|Hne]; [|contradiction]. cbn [negb].
  assert (Hlen : (2 <= length (present (map obs_value (group data k))))%nat).
  { unfold s_std in Hsd.
    destruct (length (present (map obs_value (group data k))) <? 2)%nat eqn:Hlt;
      [discriminate|]. apply Nat.ltb_ge in Hlt. assumption. }
  rewrite (s_mean_present _ Hlen).
  destruct (obs_value r) as [v|]; cbn [csub cdiv]; [|reflexivity].
  destruct (Req_dec_T 1 0) as [H10|_]; [lra | reflexivity].
Qed.

(** The divisor of the lambda is never zero. *)
Lemma divisor_not_zero (s : list cell) :
  (if negb (in_0_None (s_std s)) then s_std s else Val 1) <> Val 0.
Proof.
  destruct (s_std s) as [x|]; cbn [in_0_None].
  - destruct (Req_dec_T x 0) as [Hz|Hnz]; cbn [negb].
    + intros [= H]. lra.
    + intros [= H]. contradiction.
  - cbn. discriminate.
Qed.

(** The group 5, 5, 5 normalises to 0, 0, 0. *)
Lemma constant_series_normalises_to_zero :
  value_norm constant_series = [Val 0; Val 0; Val 0].
Proof.
  assert (Hsd : s_std [Val 5; Val 5; Val 5] = Val 0).
  { unfold s_std. cbn [present length Nat.ltb Nat.leb]. f_equal.
    rewrite <- sqrt_0. f_equal.
    unfold ssd, mean, rsum. cbn [map fold_right length INR]. field. }
  unfold value_norm, transform.
  cbn [scatter constant_series group_key usa_gdp_obs obs_countryiso3code
       obs_indicator app].
  change (map obs_value (group constant_series ("USA", "NY.GDP.MKTP.KD.ZG")%string))
    with [Val 5; Val 5; Val 5].
  unfold zscore. rewrite Hsd. unfold in_0_None.
  destruct (Req_dec_T 0 0) as [_|Hne]; [|contradiction].
  cbn [negb map s_mean present csub cdiv].
  destruct (Req_dec_T 1 0) as [H10|_]; [lra|].
  repeat match goal with
         | |- context [length (group ?l ?k)] =>
             let n := eval vm_compute in (length (group l k)) in
             change (length (group l k)) with n
         end.
  cbn [nth].
  assert (Hz : (5 - mean [5; 5; 5]) / 1 = 0).
  { unfold mean, rsum. cbn [fold_right length INR]. field. }
  rewrite Hz. reflexivity.
Qed.
End DegenerateGroups.

(** C4, at the failing input.  A group with one present value (5, beside a
    missing one) has NaN for standard deviation, the test [in (0, None)]
    does not catch it, and both cells of the group normalise to NaN, where
    the claim has [5 - 5 = 0] for the present one. *)
Theorem single_value_group_normalises_to_nan :
  s_std (map obs_value single_value_series) = NaN
  /\ in_0_None NaN = false
  /\ value_norm single_value_series = [NaN; NaN].
Proof. repeat split; reflexivity. Qed.

(** ** Correlation *)

Section Correlation.
Local Open Scope R_scope.

Definition sum_x (ps : list (R * R)) : R := rsum (map fst ps).
Definition sum_y (ps : list (R * R)) : R := rsum (map snd ps).
Definition sum_xy (ps : list (R * R)) : R := rsum (map (fun p => fst p * snd p) ps).
Definition sum_sq (xs : list R) : R := rsum (map (fun x => x * x) xs).

(** Sum of the products of the deviations: the numerator of [pearson]. *)
Definition scp (ps : list (R * R)) : R :=
  rsum (map (fun p => (fst p - mean (map fst ps)) * (snd p - mean (map snd ps))) ps).

Lemma rsum_app (a b : list R) : rsum (a ++ b) = rsum a + rsum b.
Proof.
  unfold rsum. induction a as [|x a IH]; cbn [app fold_right].
  - ring.
  - rewrite IH. ring.
Qed.

Lemma rsum_single (x : R) : rsum [x] = x.
Proof. unfold rsum. cbn [fold_right]. ring. Qed.

Lemma dev_products (a b : R) (ps : list (R * R)) :
  rsum (map (fun p => (fst p - a) * (snd p - b)) ps)
  = sum_xy ps - a * sum_y ps - b * sum_x ps + INR (length ps) * a * b.
Proof.
  unfold sum_xy, sum_x, sum_y, rsum.
  induction ps as [|[x y] ps IH].
  - cbn. ring.
  - cbn [map fold_right fst snd length]. rewrite IH, S_INR. ring.
Qed.

Lemma dev_squares (a : R) (xs : list R) :
  rsum (map (fun x => (x - a) * (x - a)) xs)
  = sum_sq xs - 2 * a * rsum xs + INR (length xs) * a * a.
Proof.
  unfold sum_sq, rsum.
  induction xs as [|x xs IH].
  - cbn. ring.
  - cbn [map fold_right length]. rewrite IH, S_INR. ring.
Qed.

Definition welford_fold (ps : list (R * R)) : welford :=
  fold_left (fun st p => welford_step st (fst p) (snd p)) ps welford_init.

Lemma welford_run_joint (xs : list cell) : forall (ys : list cell) (st : welford),
  welford_run st xs ys
  = fold_left (fun st p => welford_step st (fst p) (snd p)) (joint xs ys) st.
Proof.
  induction xs as [|x xs IH]; intros ys st; cbn [welford_run joint].
  - reflexivity.
  - destruct ys as [|y ys]; [reflexivity|].
    destruct x as [vx|]; [destruct y as [vy|]|]; cbn [fold_left fst snd]; apply IH.
Qed.

Lemma INR_length_pos {A : Type} (l : list A) : l <> [] -> 0 < INR (length l).
Proof.
  destruct l; [congruence|]. intros _. cbn [length]. apply lt_0_INR. lia.
Qed.

(** Welford's running state is the textbook statistics of the pairs read
    so far. *)
Lemma welford_fold_spec (ps : list (R * R)) :
  let st := welford_fold ps in
  nobs st = length ps
  /\ meanx st = mean (map fst ps)
  /\ meany st = mean (map snd ps)
  /\ ssqdm_x st = ssd (map fst ps)
  /\ ssqdm_y st = ssd (map snd ps)
  /\ covxy st = scp ps.
Proof.
  induction ps as [|[x y] ps IH] using rev_ind.
  - cbv zeta. unfold welford_fold, mean, ssd, scp, rsum, Rdiv.
    cbn [fold_left welford_init nobs meanx meany ssqdm_x ssqdm_y covxy
         map fold_right length INR].
    repeat split; ring.
  - cbv zeta in *. unfold welford_fold in *. rewrite fold_left_app.
    cbn [fold_left fst snd].
    set (st := fold_left _ ps welford_init) in *.
    destruct IH as (Hn & Hmx & Hmy & Hsx & Hsy & Hc).
    unfold welford_step.
    cbn [nobs meanx meany ssqdm_x ssqdm_y covxy].
    rewrite Hn, Hmx, Hmy, Hsx, Hsy, Hc. clear Hn Hmx Hmy Hsx Hsy Hc st.
    unfold ssd, scp.
    rewrite !dev_squares, !dev_products.
    unfold mean, sum_x, sum_y, sum_xy, sum_sq.
    rewrite !map_app, !rsum_app, !length_app, !length_map.
    cbn [map fst snd length]. rewrite !rsum_single.
    replace (length ps + 1)%nat with (S (length ps)) by lia.
    rewrite !S_INR.
    split; [reflexivity|].
    destruct ps as [|p ps].
    + unfold rsum. cbn [map fold_right length INR].
      replace (0 / 0) with 0 by (unfold Rdiv; ring).
      repeat split; field.
    + pose proof (INR_length_pos (p :: ps) ltac:(discriminate)) as Hpos.
      set (n := INR (length (p :: ps))) in *.
      set (sx := rsum (map fst (p :: ps))).
      set (sy := rsum (map snd (p :: ps))).
      set (sxy := rsum (map (fun q => fst q * snd q) (p :: ps))).
      set (sxx := rsum (map (fun v => v * v) (map fst (p :: ps)))).
      set (syy := rsum (map (fun v => v * v) (map snd (p :: ps)))).
      repeat split; field; lra.
Qed.
(** What pandas computes for a pair of columns is Pearson's coefficient
    of the rows where both are present. *)
Lemma nancorr_pearson (xs ys : list cell) :
  nancorr xs ys = pearson (joint xs ys).
Proof.
  unfold nancorr. rewrite welford_run_joint. fold (welford_fold (joint xs ys)).
  destruct (welford_fold_spec (joint xs ys)) as (Hn & _ & _ & Hsx & Hsy & Hc).
  rewrite Hn, Hsx, Hsy, Hc. unfold pearson, scp.
  destruct (joint xs ys) as [|p ps]; reflexivity.
Qed.

(** Fewer than two pairs: no coefficient. *)
Lemma pearson_few (ps : list (R * R)) :
  (length ps < 2)%nat -> pearson ps = NaN.
Proof.
  intros Hfew. destruct ps as [|[x y] [|q ps]]; cbn [length] in Hfew; [| |lia].
  - reflexivity.
  - unfold pearson.
    assert (Hden : sqrt (ssd (map fst [(x, y)]) * ssd (map snd [(x, y)])) = 0).
    { rewrite <- sqrt_0. f_equal.
      unfold ssd, mean, rsum. cbn [map fst snd fold_right length INR]. field. }
    rewrite Hden. destruct (Req_dec_T 0 0) as [_|Hne]; [reflexivity | contradiction].
Qed.

Lemma joint_swap (xs : list cell) : forall ys,
  joint ys xs = map (fun p => (snd p, fst p)) (joint xs ys).
Proof.
  induction xs as [|x xs IH]; intros ys.
  - destruct ys as [|y ys]; [reflexivity|]. cbn. destruct y; reflexivity.
  - destruct ys as [|y ys]; [reflexivity|]. cbn [joint].
    destruct x as [vx|], y as [vy|]; cbn [map fst snd]; rewrite IH; reflexivity.
Qed.

(** The coefficient does not depend on the order of the two columns. *)
Lemma pearson_swap (ps : list (R * R)) :
  pearson (map (fun p => (snd p, fst p)) ps) = pearson ps.
Proof.
  unfold pearson. rewrite !map_map. cbn [fst snd].
  rewrite (map_ext (fun p : R * R => snd p) snd) by reflexivity.
  rewrite (map_ext (fun p : R * R => fst p) fst) by reflexivity.
  rewrite (Rmult_comm (ssd (map snd ps))).
  rewrite (map_ext (fun p : R * R => (snd p - mean (map snd ps)) * (fst p - mean (map fst ps)))
                   (fun p : R * R => (fst p - mean (map fst ps)) * (snd p - mean (map snd ps))))
    by (intros p; ring).
  destruct ps; reflexivity.
Qed.

Lemma corr_cell_pearson (w : wide) (i j : nat) :
  let col k := snd (nth k (columns w) (("", "")%string, [])) in
  corr_cell w i j = pearson (joint (col i) (col j)).
Proof.
  cbv zeta. unfold corr_cell. destruct (j <=? i)%nat.
  - apply nancorr_pearson.
  - rewrite nancorr_pearson, joint_swap. apply pearson_swap.
Qed.

Lemma nth_map_seq {A : Type} (f : nat -> A) (n i : nat) (d : A) :
  (i < n)%nat -> nth i (map f (seq 0 n)) d = f i.
Proof.
  intros Hi. rewrite (nth_indep _ d (f 0%nat)) by (rewrite length_map, length_seq; lia).
  rewrite map_nth, seq_nth by lia. reflexivity.
Qed.

(** A cell of the displayed matrix. *)
Lemma displayed_corr_nth (w : wide) (i j : nat) :
  (i < length (columns w))%nat -> (j < length (columns w))%nat ->
  let col k := snd (nth k (columns w) (("", "")%string, [])) in
  nth j (nth i (displayed_corr w) []) NaN
  = round2 (pearson (joint (col i) (col j))).
Proof.
  intros Hi Hj. cbv zeta. unfold displayed_corr, corr.
  rewrite map_map, (nth_map_seq _ _ _ _ Hi), map_map, (nth_map_seq _ _ _ _ Hj).
  rewrite corr_cell_pearson. reflexivity.
Qed.

(** C6 (amended).  The displayed cell of two columns is Pearson's
    coefficient of the rows (years) where both columns have a value,
    rounded to two decimals; with fewer than two such years the cell is
    NaN. *)
Theorem correlation_is_rounded_pairwise_pearson (w : wide) (i j : nat) :
  (i < length (columns w))%nat -> (j < length (columns w))%nat ->
  let col k := snd (nth k (columns w) (("", "")%string, [])) in
  nth j (nth i (displayed_corr w) []) NaN
    = round2 (pearson (joint (col i) (col j)))
  /\ ((length (joint (col i) (col j)) < 2)%nat ->
      nth j (nth i (displayed_corr w) []) NaN = NaN).
Proof.
  intros Hi Hj col. subst col. cbv beta. split.
  - apply displayed_corr_nth; assumption.
  - intros Hfew. rewrite (displayed_corr_nth w i j Hi Hj).
    cbv zeta. rewrite (pearson_few _ Hfew). reflexivity.
Qed.
End Correlation.

(** The C6 theorem at the two columns of [corr_sample]. *)
Lemma correlation_of_sample :
  nth 1 (nth 0 (displayed_corr corr_sample) []) NaN
    = round2 (pearson (joint [Val 4; Val 0; Val 0; Val 0; NaN]
                             [Val 0; Val 4; Val 0; Val 0; Val 7]))
  /\ ((length (joint [Val 4; Val 0; Val 0; Val 0; NaN]
                     [Val 0; Val 4; Val 0; Val 0; Val 7]) < 2)%nat ->
      nth 1 (nth 0 (displayed_corr corr_sample) []) NaN = NaN).
Proof.
  apply (correlation_is_rounded_pairwise_pearson corr_sample 0 1);
    cbn [length columns corr_sample]; lia.
Defined.

Section Rounding.
Local Open Scope R_scope.

(** Pearson's coefficient of the two columns of [corr_sample] over their
    four common years is -1/3. *)
Lemma pearson_of_sample :
  pearson (joint [Val 4; Val 0; Val 0; Val 0; NaN]
                 [Val 0; Val 4; Val 0; Val 0; Val 7]) = Val (-1 / 3).
Proof.
  cbn [joint]. unfold pearson. cbn [map fst snd].
  assert (Hden : sqrt (ssd [4; 0; 0; 0] * ssd [0; 4; 0; 0]) = 12).
  { transitivity (sqrt (12 * 12)); [|apply sqrt_square; lra]. f_equal.
    unfold ssd, mean, rsum. cbn [map fold_right length INR]. field. }
  rewrite Hden. destruct (Req_dec_T 12 0) as [H|_]; [lra|]. f_equal.
  unfold mean, rsum. cbn [map fold_right length INR fst snd]. field.
Qed.

(** -100/3 rounds to -33. *)
Lemma rint_of_third : rint (-1 / 3 * 100) = (-33)%Z.
Proof.
  assert (Hint : Int_part (-1 / 3 * 100) = (-34)%Z).
  { symmetry. apply Int_part_spec. split; lra. }
  unfold rint, frac_part. rewrite Hint.
  destruct (Rlt_dec (-1 / 3 * 100 - -34) (1 / 2)) as [H|_]; [lra|].
  destruct (Rlt_dec (1 / 2) (-1 / 3 * 100 - -34)) as [_|H]; [reflexivity | lra].
Qed.
End Rounding.

(** C6, counterexample.  The displayed cell of the two columns of
    [corr_sample] is -0.33, while Pearson's coefficient over the years
    where both are present is -1/3. *)
Lemma displayed_correlation_is_rounded :
  nth 1 (nth 0 (displayed_corr corr_sample) []) NaN = Val (-33 / 100)
  /\ pearson (joint [Val 4; Val 0; Val 0; Val 0; NaN]
                    [Val 0; Val 4; Val 0; Val 0; Val 7]) = Val (-1 / 3)
  /\ Val (-33 / 100) <> Val (-1 / 3).
Proof.
  split; [|split].
  - rewrite (displayed_corr_nth corr_sample 0 1) by (cbn [length columns corr_sample]; lia).
    cbv zeta. cbn [nth columns corr_sample snd].
    rewrite pearson_of_sample. unfold round2. rewrite rint_of_third. reflexivity.
  - apply pearson_of_sample.
  - intros [= H]. lra.
Qed.

(** ** Sorted keys without repeats *)

(** What [sort_uniq] needs of a comparison. *)
Record lawful {A : Type} (cmp : A -> A -> comparison) : Prop := {
  cmp_eq : forall x y, cmp x y = Eq <-> x = y;
  cmp_trans : forall x y z, cmp x y = Lt -> cmp y z = Lt -> cmp x z = Lt;
  cmp_gt : forall x y, cmp x y = Gt -> cmp y x = Lt
}.

Lemma lawful_Z : lawful Z.compare.
Proof.
  split.
  - apply Z.compare_eq_iff.
  - intros x y z. rewrite !Z.compare_lt_iff. lia.
  - intros x y. rewrite Z.compare_gt_iff, Z.compare_lt_iff. lia.
Qed.

Lemma ascii_compare_refl (a : ascii) : Ascii.compare a a = Eq.
Proof. unfold Ascii.compare. apply N.compare_refl. Qed.

Lemma string_compare_refl (s : string) : String.compare s s = Eq.
Proof.
  induction s as [|c s IH]; cbn; [reflexivity|].
  rewrite ascii_compare_refl. exact IH.
Qed.

Lemma string_compare_trans (x : string) : forall y z,
  String.compare x y = Lt -> String.compare y z = Lt -> String.compare x z = Lt.
Proof.
  induction x as [|a x IH]; intros [|b y] [|c z]; cbn; try congruence.
  destruct (Ascii.compare a b) eqn:Hab; try discriminate;
    destruct (Ascii.compare b c) eqn:Hbc; try discriminate; intros Hxy Hyz.
  - apply Ascii.compare_eq_iff in Hab, Hbc. subst.
    rewrite ascii_compare_refl. eapply IH; eassumption.
  - apply Ascii.compare_eq_iff in Hab. subst. rewrite Hbc. reflexivity.
  - apply Ascii.compare_eq_iff in Hbc. subst. rewrite Hab. reflexivity.
  - unfold Ascii.compare in *. rewrite N.compare_lt_iff in Hab, Hbc.
    assert (H : (N_of_ascii a ?= N_of_ascii c)%N = Lt)
      by (apply N.compare_lt_iff; lia).
    rewrite H. reflexivity.
Qed.

Lemma lawful_string : lawful String.compare.
Proof.
  split.
  - intros x y. split; [apply String.compare_eq_iff|].
    intros ->. apply string_compare_refl.
  - intros x y z. apply string_compare_trans.
  - intros x y H. rewrite String.compare_antisym, H. reflexivity.
Qed.

(** The lexicographic comparison of pairs is lawful when its parts are. *)
Lemma lawful_lex {A B : Type} (ca : A -> A -> comparison) (cb : B -> B -> comparison) :
  lawful ca -> lawful cb ->
  lawful (fun x y : A * B =>
            match ca (fst x) (fst y) with
            | Eq => cb (snd x) (snd y)
            | c => c
            end).
Proof.
  intros [Ea Ta Ga] [Eb Tb Gb]. split.
  - intros [a b] [a' b']. cbn. split.
    + destruct (ca a a') eqn:Ha; try discriminate.
      intros Hb. apply Ea in Ha. apply Eb in Hb. congruence.
    + intros [= -> ->]. rewrite (proj2 (Ea a' a') eq_refl). apply Eb. reflexivity.
  - intros [a b] [a' b'] [a'' b'']. cbn.
    destruct (ca a a') eqn:H1; try discriminate;
      destruct (ca a' a'') eqn:H2; try discriminate; intros Hx Hy.
    + apply Ea in H1, H2. subst. rewrite (proj2 (Ea a'' a'') eq_refl).
      eapply Tb; eassumption.
    + apply Ea in H1. subst. rewrite H2. reflexivity.
    + apply Ea in H2. subst. rewrite H1. reflexivity.
    + rewrite (Ta _ _ _ H1 H2). reflexivity.
  - intros [a b] [a' b']. cbn.
    destruct (ca a a') eqn:H1; try discriminate; intros Hx.
    + apply Ea in H1. subst. rewrite (proj2 (Ea a' a') eq_refl). apply Gb. assumption.
    + rewrite (Ga _ _ H1). reflexivity.
Qed.

Lemma lawful_label : lawful label_compare.
Proof. exact (lawful_lex String.compare String.compare lawful_string lawful_string). Qed.

Lemma lawful_pivot : lawful pivot_compare.
Proof. exact (lawful_lex Z.compare label_compare lawful_Z lawful_label). Qed.

Section SortUniq.
Context {A : Type} (cmp : A -> A -> comparison) (Hcmp : lawful cmp).

Lemma insert_uniq_In (x z : A) (l : list A) :
  In z (insert_uniq cmp x l) <-> z = x \/ In z l.
Proof.
  induction l as [|y l IH]; cbn [insert_uniq].
  - cbn. intuition.
  - destruct (cmp x y) eqn:Hxy.
    + apply (cmp_eq cmp Hcmp) in Hxy. subst. cbn. intuition.
    + cbn. intuition.
    + cbn [In]. rewrite IH. intuition.
Qed.

(** [sort_uniq] keeps the members. *)
Lemma sort_uniq_In (z : A) (l : list A) : In z (sort_uniq cmp l) <-> In z l.
Proof.
  unfold sort_uniq. induction l as [|x l IH]; cbn [fold_right].
  - reflexivity.
  - rewrite insert_uniq_In, IH. cbn. intuition.
Qed.

Definition lt_of (x y : A) : Prop := cmp x y = Lt.

Lemma insert_uniq_sorted (x : A) (l : list A) :
  StronglySorted lt_of l -> StronglySorted lt_of (insert_uniq cmp x l).
Proof.
  induction l as [|y l IH]; intros Hs; cbn [insert_uniq].
  - repeat constructor.
  - apply StronglySorted_inv in Hs as [Hl Hy].
    destruct (cmp x y) eqn:Hxy.
    + constructor; assumption.
    + constructor; [constructor; assumption|].
      constructor; [exact Hxy|].
      rewrite List.Forall_forall in *. intros z Hz.
      eapply (cmp_trans cmp Hcmp); [exact Hxy | apply Hy; exact Hz].
    + constructor; [apply IH; assumption|].
      apply List.Forall_forall. intros z Hz. apply insert_uniq_In in Hz as [-> | Hz].
      * apply (cmp_gt cmp Hcmp). assumption.
      * rewrite List.Forall_forall in Hy. apply Hy. assumption.
Qed.

Lemma sort_uniq_sorted (l : list A) : StronglySorted lt_of (sort_uniq cmp l).
Proof.
  unfold sort_uniq. induction l as [|x l IH]; cbn [fold_right].
  - constructor.
  - apply insert_uniq_sorted. exact IH.
Qed.

(** [sort_uniq] holds each member once. *)
Lemma sort_uniq_NoDup (l : list A) : List.NoDup (sort_uniq cmp l).
Proof.
  generalize (sort_uniq_sorted l). generalize (sort_uniq cmp l). clear l.
  induction 1 as [|x l Hs IH Hx]; constructor; [|exact IH].
  intros Hin. rewrite List.Forall_forall in Hx. specialize (Hx x Hin).
  unfold lt_of in Hx. rewrite (proj2 (cmp_eq cmp Hcmp x x) eq_refl) in Hx.
  discriminate.
Qed.
End SortUniq.

(** ** The wide pivot *)

Section PivotTable.
Variable df : list (obs * cell).

(** The cells of the rows of one group. *)
Definition group_cells (k : Z * label) : list cell :=
  map snd (List.filter (in_pivot_group k) df).

(** A (year, label) pair to which some row contributes a value. *)
Definition contributes (k : Z * label) : Prop :=
  exists r v, In (r, Val v) df /\ pivot_key r = Some k.

Lemma in_pivot_group_true (k : Z * label) (rc : obs * cell) :
  in_pivot_group k rc = true <-> pivot_key (fst rc) = Some k.
Proof.
  unfold in_pivot_group. destruct (pivot_key (fst rc)) as [k'|].
  - destruct (pivot_compare k k') eqn:Hc.
    + apply (cmp_eq _ lawful_pivot) in Hc. subst. tauto.
    + split; [discriminate|]. intros [= ->].
      rewrite (proj2 (cmp_eq _ lawful_pivot k k) eq_refl) in Hc. discriminate.
    + split; [discriminate|]. intros [= ->].
      rewrite (proj2 (cmp_eq _ lawful_pivot k k) eq_refl) in Hc. discriminate.
  - split; discriminate.
Qed.

Lemma group_cells_In (k : Z * label) (c : cell) :
  In c (group_cells k) <-> exists r, In (r, c) df /\ pivot_key r = Some k.
Proof.
  unfold group_cells. rewrite in_map_iff. split.
  - intros ([r c'] & <- & Hin). apply List.filter_In in Hin as [Hin Hg].
    apply in_pivot_group_true in Hg. exists r. auto.
  - intros (r & Hin & Hk). exists (r, c). split; [reflexivity|].
    apply List.filter_In. split; [assumption|].
    apply in_pivot_group_true. assumption.
Qed.

Lemma pivot_keys_In (k : Z * label) :
  In k (pivot_keys df) <-> exists r c, In (r, c) df /\ pivot_key r = Some k.
Proof.
  induction df as [|[r c] rest IH]; cbn [pivot_keys].
  - split; [intros [] | intros (r & c & [] & _)].
  - destruct (pivot_key r) as [k'|] eqn:Hk.
    + cbn [In]. rewrite IH. split.
      * intros [<- | (r' & c' & Hin & Hk')].
        -- exists r, c. split; [left; reflexivity | assumption].
        -- exists r', c'. split; [right; assumption | assumption].
      * intros (r' & c' & [[= <- <-] | Hin] & Hk').
        -- left. congruence.
        -- right. exists r', c'. auto.
    + rewrite IH. split.
      * intros (r' & c' & Hin & Hk'). exists r', c'.
        split; [right; assumption | assumption].
      * intros (r' & c' & [[= <- <-] | Hin] & Hk'); [congruence|].
        exists r', c'. auto.
Qed.

Lemma present_In (s : list cell) (v : R) : In v (present s) <-> In (Val v) s.
Proof.
  induction s as [|[x|] s IH]; cbn [present In].
  - reflexivity.
  - rewrite IH. split; intros [H | H]; auto; left; congruence.
  - rewrite IH. split; [auto | intros [H | H]; [discriminate | assumption]].
Qed.

(** The mean of a series is a number exactly when a value is present. *)
Lemma is_val_s_mean (s : list cell) :
  is_val (s_mean s) = true <-> exists v, In (Val v) s.
Proof.
  unfold s_mean. destruct (present s) as [|x xs] eqn:Hp.
  - split; [discriminate|]. intros (v & Hv). apply present_In in Hv.
    rewrite Hp in Hv. destruct Hv.
  - split; [|reflexivity]. intros _. exists x. apply present_In.
    rewrite Hp. left. reflexivity.
Qed.

Lemma is_val_group_mean (k : Z * label) :
  is_val (s_mean (group_cells k)) = true <-> contributes k.
Proof.
  rewrite is_val_s_mean. unfold contributes. split.
  - intros (v & Hv). apply group_cells_In in Hv as (r & Hin & Hk). eauto.
  - intros (r & v & Hin & Hk). exists v. apply group_cells_In. eauto.
Qed.

Lemma agged_dropna_In (k : Z * label) (c : cell) :
  In (k, c) (agged_dropna df) <-> contributes k /\ c = s_mean (group_cells k).
Proof.
  unfold agged_dropna, agged. rewrite List.filter_In, in_map_iff. cbn [snd].
  split.
  - intros ((k' & [= <- <-] & Hin) & Hval).
    split; [|reflexivity]. apply is_val_group_mean. exact Hval.
  - intros [Hc ->]. split.
    + exists k. split; [reflexivity|].
      apply (sort_uniq_In _ lawful_pivot). apply pivot_keys_In.
      destruct Hc as (r & v & Hin & Hk). eauto.
    + apply is_val_group_mean. exact Hc.
Qed.

(** Looking a key up in the aggregated groups gives the mean of the
    group's cells: a number for a contributing key, NaN otherwise. *)
Lemma agg_lookup_In (ag : list ((Z * label) * cell)) (k : Z * label) :
  agg_lookup k ag = NaN \/ In (k, agg_lookup k ag) ag.
Proof.
  induction ag as [|[k' c] ag IH]; cbn [agg_lookup]; [left; reflexivity|].
  destruct (pivot_compare k k') eqn:Hc.
  - apply (cmp_eq _ lawful_pivot) in Hc. subst. right. left. reflexivity.
  - destruct IH as [H | H]; [left | right; right]; assumption.
  - destruct IH as [H | H]; [left | right; right]; assumption.
Qed.

Lemma agg_lookup_found (ag : list ((Z * label) * cell)) (k : Z * label) (c : cell) :
  In (k, c) ag -> exists c', In (k, c') ag /\ agg_lookup k ag = c'.
Proof.
  induction ag as [|[k' c0] ag IH]; intros Hin; [destruct Hin|].
  cbn [agg_lookup]. destruct (pivot_compare k k') eqn:Hc.
  - apply (cmp_eq _ lawful_pivot) in Hc. subst. exists c0. split; [left|]; reflexivity.
  - destruct Hin as [[= -> ->] | Hin].
    + rewrite (proj2 (cmp_eq _ lawful_pivot k k) eq_refl) in Hc. discriminate.
    + destruct (IH Hin) as (c' & Hin' & Hl). exists c'. split; [right|]; assumption.
  - destruct Hin as [[= -> ->] | Hin].
    + rewrite (proj2 (cmp_eq _ lawful_pivot k k) eq_refl) in Hc. discriminate.
    + destruct (IH Hin) as (c' & Hin' & Hl). exists c'. split; [right|]; assumption.
Qed.

Lemma agg_lookup_mean (k : Z * label) :
  agg_lookup k (agged_dropna df) = s_mean (group_cells k).
Proof.
  destruct (is_val (s_mean (group_cells k))) eqn:Hval.
  - assert (Hin : In (k, s_mean (group_cells k)) (agged_dropna df)).
    { apply agged_dropna_In. split; [|reflexivity].
      apply is_val_group_mean. exact Hval. }
    destruct (agg_lookup_found _ _ _ Hin) as (c' & Hin' & ->).
    apply agged_dropna_In in Hin' as [_ ->]. reflexivity.
  - destruct (agg_lookup_In (agged_dropna df) k) as [-> | Hin].
    + destruct (s_mean (group_cells k)); [discriminate | reflexivity].
    + apply agged_dropna_In in Hin as [_ ->]. reflexivity.
Qed.

Lemma at_year_map (f : Z -> cell) (idx : list Z) (y : Z) :
  at_year idx (map f idx) y = if existsb (Z.eqb y) idx then f y else NaN.
Proof.
  induction idx as [|i idx IH]; cbn [at_year map existsb]; [reflexivity|].
  rewrite (Z.eqb_sym y i). destruct (i =? y) eqn:Hiy; cbn [orb].
  - apply Z.eqb_eq in Hiy. subst. reflexivity.
  - exact IH.
Qed.

Lemma at_year_absent (idx : list Z) (y : Z) : forall cells,
  ~ In y idx -> at_year idx cells y = NaN.
Proof.
  induction idx as [|i idx IH]; intros cells Hnot; [reflexivity|].
  destruct cells as [|c cells]; [reflexivity|]. cbn [at_year].
  destruct (i =? y) eqn:Hiy.
  - apply Z.eqb_eq in Hiy. exfalso. apply Hnot. left. assumption.
  - apply IH. intros Hin. apply Hnot. right. assumption.
Qed.

Lemma existsb_Zeqb (y : Z) (idx : list Z) :
  existsb (Z.eqb y) idx = true <-> In y idx.
Proof.
  rewrite existsb_exists. split.
  - intros (x & Hin & Heq). apply Z.eqb_eq in Heq. subst. assumption.
  - intros Hin. exists y. split; [assumption | apply Z.eqb_refl].
Qed.

(** The index of the pivot: the years with a contributing row. *)
Lemma pivot_index_In (y : Z) :
  In y (index (pivot_table df)) <-> exists l, contributes (y, l).
Proof.
  cbn [pivot_table index]. rewrite (sort_uniq_In _ lawful_Z), in_map_iff. split.
  - intros ([[y' l] c] & <- & Hin). apply agged_dropna_In in Hin as [Hc _].
    exists l. exact Hc.
  - intros (l & Hc). exists ((y, l), s_mean (group_cells (y, l))).
    split; [reflexivity|]. apply agged_dropna_In. auto.
Qed.

Lemma pivot_labels_In (l : label) :
  In l (sort_uniq label_compare (map (fun kc => snd (fst kc)) (agged_dropna df)))
  <-> exists y, contributes (y, l).
Proof.
  rewrite (sort_uniq_In _ lawful_label), in_map_iff. split.
  - intros ([[y l'] c] & <- & Hin). apply agged_dropna_In in Hin as [Hc _].
    exists y. exact Hc.
  - intros (y & Hc). exists ((y, l), s_mean (group_cells (y, l))).
    split; [reflexivity|]. apply agged_dropna_In. auto.
Qed.

(** No column of the pivot is dropped for being all NaN. *)
Lemma pivot_columns :
  columns (pivot_table df)
  = map (fun l => (l, map (fun y => agg_lookup (y, l) (agged_dropna df))
                          (index (pivot_table df))))
        (sort_uniq label_compare (map (fun kc => snd (fst kc)) (agged_dropna df))).
Proof.
  cbn [pivot_table columns index]. apply forallb_filter_id.
  apply forallb_forall. intros [l cells] Hin. cbn [snd].
  apply in_map_iff in Hin as (l' & [= <- <-] & Hl).
  apply pivot_labels_In in Hl as (y & Hc).
  apply existsb_exists. exists (agg_lookup (y, l') (agged_dropna df)). split.
  - apply in_map_iff. exists y. split; [reflexivity|].
    apply (pivot_index_In y). eauto.
  - rewrite agg_lookup_mean. apply is_val_group_mean. exact Hc.
Qed.

Lemma pivot_labels_NoDup : List.NoDup (map fst (columns (pivot_table df))).
Proof.
  rewrite pivot_columns, map_map. cbn [fst]. rewrite map_id.
  apply sort_uniq_NoDup. exact lawful_label.
Qed.

Lemma pivot_column_In (l : label) :
  In l (map fst (columns (pivot_table df))) <-> exists y, contributes (y, l).
Proof.
  rewrite pivot_columns, map_map. cbn [fst]. rewrite map_id.
  apply pivot_labels_In.
Qed.

(** A cell of the pivot is the mean of the present values of its group,
    NaN when the group has none. *)
Lemma pivot_cell (l : label) (cells : list cell) (y : Z) :
  In (l, cells) (columns (pivot_table df)) ->
  length cells = length (index (pivot_table df))
  /\ at_year (index (pivot_table df)) cells y = s_mean (group_cells (y, l)).
Proof.
  intros Hin. rewrite pivot_columns in Hin.
  apply in_map_iff in Hin as (l' & [= <- <-] & Hl).
  split; [apply length_map|].
  rewrite at_year_map.
  destruct (existsb _ _) eqn:Hex.
  - apply agg_lookup_mean.
  - destruct (is_val (s_mean (group_cells (y, l')))) eqn:Hval.
    + apply is_val_group_mean in Hval.
      assert (Hy : In y (index (pivot_table df))) by (apply pivot_index_In; eauto).
      apply existsb_Zeqb in Hy.
      assert (Habs : true = false) by (rewrite <- Hy; exact Hex).
      discriminate.
    + destruct (s_mean (group_cells (y, l'))); [discriminate | reflexivity].
Qed.
End PivotTable.

Section WideAll.

Lemma name_map_inj (a b n : string) :
  name_map a = Some n -> name_map b = Some n -> a = b.
Proof.
  unfold name_map, INDICATORS. cbn [assoc option_map fst].
  destruct (String.eqb a "NY.GDP.MKTP.KD.ZG") eqn:Ha1;
    [|destruct (String.eqb a "FP.CPI.TOTL.ZG") eqn:Ha2;
      [|destruct (String.eqb a "SL.UEM.TOTL.ZS") eqn:Ha3]];
  (destruct (String.eqb b "NY.GDP.MKTP.KD.ZG") eqn:Hb1;
    [|destruct (String.eqb b "FP.CPI.TOTL.ZG") eqn:Hb2;
      [|destruct (String.eqb b "SL.UEM.TOTL.ZS") eqn:Hb3]]);
  cbn [option_map fst]; intros H1 H2; try congruence;
  repeat match goal with
         | H : String.eqb _ _ = true |- _ => apply String.eqb_eq in H
         end;
  congruence.
Qed.

(** Adding the years not yet seen keeps each year once. *)
Lemma dedup_fold (l : list Z) : forall acc,
  List.NoDup acc ->
  List.NoDup (fold_left (fun acc y => if existsb (Z.eqb y) acc then acc else acc ++ [y]) l acc)
  /\ forall y,
       In y (fold_left (fun acc y => if existsb (Z.eqb y) acc then acc else acc ++ [y]) l acc)
       <-> In y acc \/ In y l.
Proof.
  induction l as [|x l IH]; intros acc Hnd; cbn [fold_left].
  - split; [assumption|]. intros y. cbn. tauto.
  - destruct (existsb (Z.eqb x) acc) eqn:Hex.
    + destruct (IH acc Hnd) as [Hn Hin]. split; [assumption|].
      intros y. rewrite Hin. cbn [In]. apply existsb_Zeqb in Hex.
      split; [tauto|]. intros [H | [<- | H]]; tauto.
    + assert (Hx : ~ In x acc).
      { intros Hin. apply existsb_Zeqb in Hin. congruence. }
      destruct (IH (acc ++ [x])) as [Hn Hin].
      * apply List.NoDup_app; [assumption | repeat constructor; intros [] |].
        intros a Ha [<- | []]. contradiction.
      * split; [assumption|]. intros y. rewrite Hin, in_app_iff. cbn [In]. tauto.
Qed.

Lemma union_index_NoDup (parts : list wide) : List.NoDup (union_index parts).
Proof. unfold union_index. apply dedup_fold. constructor. Qed.

Lemma union_index_In (parts : list wide) (y : Z) :
  In y (union_index parts) <-> exists w, In w parts /\ In y (index w).
Proof.
  unfold union_index.
  rewrite (proj2 (dedup_fold (concat (map index parts)) [] (List.NoDup_nil _)) y).
  cbn [In]. rewrite in_concat. split.
  - intros [[] | (idx & Hidx & Hy)]. apply in_map_iff in Hidx as (w & <- & Hw). eauto.
  - intros (w & Hw & Hy). right. exists (index w). split; [|assumption].
    apply in_map_iff. eauto.
Qed.

Lemma concat_axis1_columns (parts : list wide) (l : label) (cells : list cell) :
  In (l, cells) (columns (concat_axis1 parts))
  <-> exists w cells0, In w parts /\ In (l, cells0) (columns w)
        /\ cells = map (at_year (index w) cells0) (union_index parts).
Proof.
  cbn [concat_axis1 columns]. rewrite in_flat_map. split.
  - intros (w & Hw & Hin). apply in_map_iff in Hin as ([l0 cells0] & [= <- <-] & Hc).
    exists w, cells0. auto.
  - intros (w & cells0 & Hw & Hc & ->). exists w. split; [assumption|].
    apply in_map_iff. exists (l, cells0). auto.
Qed.

Lemma concat_axis1_labels (parts : list wide) :
  map fst (columns (concat_axis1 parts))
  = flat_map (fun w => map fst (columns w)) parts.
Proof.
  cbn [concat_axis1 columns]. generalize (union_index parts) as idx. intros idx.
  induction parts as [|w parts IH]; cbn [flat_map]; [reflexivity|].
  rewrite map_app, IH, map_map. reflexivity.
Qed.

(** Re-indexing a column on the union of the indexes keeps its cells. *)
Lemma reindexed_cell (parts : list wide) (w : wide) (cells0 : list cell) (y : Z) :
  In w parts ->
  at_year (union_index parts) (map (at_year (index w) cells0) (union_index parts)) y
  = at_year (index w) cells0 y.
Proof.
  intros Hw. rewrite at_year_map.
  destruct (existsb (Z.eqb y) (union_index parts)) eqn:Hex; [reflexivity|].
  symmetry. apply at_year_absent. intros Hy.
  assert (Hin : In y (union_index parts)) by (apply union_index_In; eauto).
  apply existsb_Zeqb in Hin. congruence.
Qed.

Variable indicator_codes : list string.
Variable norm : bool.
Variable data : list obs.

(** A (year, label) pair for which a row of a selected indicator has a
    value in the pivoted column. *)
Definition observed (y : Z) (l : label) : Prop :=
  exists ind r v,
    In ind indicator_codes /\ In (r, Val v) (with_ycol norm data)
    /\ obs_indicator r = Some ind /\ pivot_key r = Some (y, l).

Lemma has_indicator_true (ind : string) (r : obs) :
  has_indicator ind r = true <-> obs_indicator r = Some ind.
Proof.
  unfold has_indicator. destruct (obs_indicator r) as [i|].
  - rewrite String.eqb_eq. split; congruence.
  - split; discriminate.
Qed.

Lemma contributes_select (ind : string) (k : Z * label) :
  contributes (select_indicator ind (with_ycol norm data)) k
  <-> exists r v, In (r, Val v) (with_ycol norm data)
        /\ obs_indicator r = Some ind /\ pivot_key r = Some k.
Proof.
  unfold contributes, select_indicator. split.
  - intros (r & v & Hin & Hk). apply List.filter_In in Hin as [Hin Hi].
    apply has_indicator_true in Hi. eauto.
  - intros (r & v & Hin & Hi & Hk). exists r, v. split; [|assumption].
    apply List.filter_In. split; [assumption|]. apply has_indicator_true. assumption.
Qed.

Lemma part_label_name (ind : string) (l : label) :
  In l (map fst (columns (pivot_table (select_indicator ind (with_ycol norm data))))) ->
  name_map ind = Some (snd l).
Proof.
  intros Hin. apply pivot_column_In in Hin as (y & Hc).
  apply contributes_select in Hc as (r & v & _ & Hi & Hk).
  unfold pivot_key, indicator_name in Hk. rewrite Hi in Hk.
  destruct (obs_country r); [|discriminate].
  destruct (name_map ind); [|discriminate].
  injection Hk as _ <-. reflexivity.
Qed.

Lemma parts_labels_NoDup (codes : list string) :
  List.NoDup codes ->
  List.NoDup (flat_map (fun w => map fst (columns w))
                (map (fun ind => pivot_table (select_indicator ind (with_ycol norm data)))
                     codes)).
Proof.
  induction codes as [|ind codes IH]; intros Hnd; cbn [map flat_map]; [constructor|].
  apply List.NoDup_cons_iff in Hnd as [Hnotin Hnd].
  apply List.NoDup_app; [apply pivot_labels_NoDup | apply IH; assumption |].
  intros l Hl Hl'. apply part_label_name in Hl.
  apply in_flat_map in Hl' as (w & Hw & Hl').
  apply in_map_iff in Hw as (ind' & <- & Hind').
  apply part_label_name in Hl'.
  assert (ind = ind') by (eapply name_map_inj; eassumption). subst. contradiction.
Qed.

(** Without normalisation the pivoted column is the column [value]. *)
Lemma with_ycol_value (r : obs) (c : cell) :
  In (r, c) (with_ycol false data) <-> In r data /\ c = obs_value r.
Proof.
  unfold with_ycol, ycol. clear. induction data as [|x rest IH]; cbn [map combine In].
  - tauto.
  - rewrite IH. split.
    + intros [[= <- <-] | [H ->]]; auto.
    + intros [[<- | H] ->]; auto.
Qed.
End WideAll.


(** * Further properties of the data layer *)

(** ** More inputs and predicates *)

(** The exception a response raises in the first statements of the loop
    body (lines 75-78), if any: a transport failure, a status other than
    200, a body that is no JSON. *)
Definition failure_of (resp : response) : option exn :=
  match resp with
  | ConnectionFailed => Some RequestException
  | Http status_code body =>
      if negb (status_code =? 200) then Some (RuntimeError status_code)
      else match body with
           | None => Some JSONDecodeError
           | Some _ => None
           end
  end.

(** A payload that ends the loop without adding rows (lines 79-83): no
    list, a list shorter than two, or a pair whose rows are falsy. *)
Definition no_rows (payload : pyobj) : bool :=
  match payload with
  | PList [_; rows] => negb (truthy rows)
  | PList (_ :: _ :: _ :: _) => false
  | _ => true
  end.

(** The guard of line 100 on the [date] entry of an API row. *)
Definition date_guard (d : pyobj) : bool := truthy d && str_isdigit d.

Definition entry (kvs : list (string * pyobj)) (k : string) : pyobj :=
  match assoc k kvs with
  | Some v => v
  | None => PNone
  end.

(** Rows whose year passes the guard. *)
Definition row_date_guard (a : pyobj) : bool :=
  match a with
  | PDict kvs => date_guard (entry kvs "date")
  | _ => false
  end.

Definition dict_or_missing (kvs : list (string * pyobj)) (k : string) : bool :=
  match assoc k kvs with
  | None => true
  | Some (PDict _) => true
  | Some _ => false
  end.

(** A year that lines 100-106 take without an exception: null, a bool, a
    float, an int of the 64-bit range, or a str that, if it is made of
    digit characters, is a decimal numeral of at most 18 digits.  [int]
    refuses a numeral of more than [int_max_str_digits] digits, and a year
    of at most 18 digits fits the 64-bit integers of the frame's [date]
    column. *)
Definition year_digits : Z := 18.

Definition readable_year (d : pyobj) : bool :=
  match d with
  | PNone | PBool _ | PFloat _ => true
  | PInt z => Z.abs z <? 2 ^ 63
  | PStr s =>
      if isdigit s
      then forallb is_decimal (list_ascii_of_string s)
           && (Z.of_nat (String.length s) <=? year_digits)
      else true
  | PList _ | PDict _ => false
  end.

(** A value of the documented shape: null or a scalar, an int being of the
    64-bit range. *)
Definition scalar_value (v : pyobj) : bool :=
  match v with
  | PNone | PBool _ | PFloat _ | PStr _ => true
  | PInt z => Z.abs z <? 2 ^ 63
  | PList _ | PDict _ => false
  end.

(** An API row of the documented shape: an object whose [country] and
    [indicator], when present, are objects, whose year is as above and
    whose value is a scalar. *)
Definition well_formed_row (a : pyobj) : bool :=
  match a with
  | PDict kvs =>
      dict_or_missing kvs "country" && dict_or_missing kvs "indicator"
      && readable_year (entry kvs "date") && scalar_value (entry kvs "value")
  | _ => false
  end.

(** An item of the rows of a page that the network sent, with status 200,
    in answer to one of the requests [t], ..., [t' - 1] of a call for the
    series; the request at [i] asks for page [1 + (i - t)]. *)
Definition sent_row (net : network) (country_iso3 indicator : string)
    (t t' : nat) (a : pyobj) : Prop :=
  exists (i : nat) (meta rows : pyobj) (items : list pyobj),
    (t <= i < t')%nat
    /\ net i (country_iso3, indicator, 1 + Z.of_nat (i - t))
       = Http 200 (Some (PList [meta; rows]))
    /\ py_iter rows = Some items
    /\ In a items.

(** A server whose first page announces a second one, which fails. *)
Definition broken_second_page_net : network :=
  fun _ req =>
    match req with
    | (_, _, 1) => page_response (paging 1 2) [usa_gdp (PStr "2019") (PFloat 2.3)]
    | _ => Http 503 None
    end.

(** The answer of the World Bank for a series without data. *)
Definition no_data_net : network :=
  fun _ _ => Http 200 (Some (PList [PDict (paging 0 0); PNone])).

(** ** Failing pages *)

Section PageFailures.
Variable net : network.
Variables country_iso3 indicator : string.
Variable t0 : nat.
Variable meta : nat -> list (string * pyobj).
Variables meta_page meta_pages : nat -> Z.
Variable rows : nat -> list pyobj.

Let answered' := answered net country_iso3 indicator t0 meta meta_page meta_pages rows.
Let stops' := stops meta_page meta_pages rows.

(** Over [d] pages that are answered and do not stop, the loop advances by
    [d] requests and appends their rows. *)
Lemma fetch_pages_skip (d : nat) : forall (i : nat) (acc : list pyobj) (fuel : nat),
  (1 <= i)%nat ->
  (forall j, (i <= j < i + d)%nat -> answered' j /\ ~ stops' j) ->
  fetch_pages net country_iso3 indicator (d + fuel) (t0 + i - 1) (Z.of_nat i) acc
  = fetch_pages net country_iso3 indicator fuel (t0 + (i + d) - 1) (Z.of_nat (i + d))
                (acc ++ concat (map rows (seq i d))).
Proof.
  induction d as [|d IH]; intros i acc fuel Hi Hgo.
  - cbn [Nat.add seq map concat]. rewrite app_nil_r, Nat.add_0_r. reflexivity.
  - destruct (Hgo i) as [Ha Hs]; [lia|].
    cbn [Nat.add]. unfold answered', stops' in *.
    rewrite (fetch_pages_continue _ _ _ _ _ _ _ _ _ _ _ Ha Hs).
    replace (S (t0 + i - 1)) with (t0 + S i - 1)%nat by lia.
    replace (Z.of_nat i + 1) with (Z.of_nat (S i)) by lia.
    rewrite IH; [|lia|intros j Hj; apply Hgo; lia].
    cbn [seq map concat]. rewrite app_assoc.
    replace (S i + d)%nat with (i + S d)%nat by lia. reflexivity.
Qed.

(** X1.  When the answer to the [k]-th request raises (transport failure,
    status other than 200, body that is no JSON) after [k - 1] pages that
    went on, the fetch raises that exception after [k] requests: the rows
    of the earlier pages are not returned. *)
Theorem failed_page_discards_rows (k : nat) (e : exn)
    (read_number : string -> option Q) (fuel : nat) :
  (1 <= k)%nat ->
  (forall j, (1 <= j < k)%nat -> answered' j /\ ~ stops' j) ->
  failure_of (net (t0 + k - 1)%nat (country_iso3, indicator, Z.of_nat k)) = Some e ->
  (k <= fuel)%nat ->
  fetch_pages net country_iso3 indicator fuel t0 1 [] = (Raise e, (t0 + k)%nat)
  /\ fetch_series_body net read_number fuel t0 country_iso3 indicator
     = (Raise e, (t0 + k)%nat).
Proof.
  intros Hk Hgo Hfail Hfuel.
  assert (Hloop : fetch_pages net country_iso3 indicator fuel t0 1 []
                  = (Raise e, (t0 + k)%nat)).
  { replace fuel with ((k - 1) + S (fuel - k))%nat by lia.
    replace t0 with (t0 + 1 - 1)%nat at 1 by lia.
    change 1 with (Z.of_nat 1).
    rewrite fetch_pages_skip; [|lia|intros j Hj; apply Hgo; lia].
    replace (1 + (k - 1))%nat with k by lia.
    cbn [fetch_pages]. unfold failure_of in Hfail.
    destruct (net (t0 + k - 1)%nat (country_iso3, indicator, Z.of_nat k))
      as [|status body].
    - injection Hfail as <-. f_equal. lia.
    - destruct (negb (status =? 200)).
      + injection Hfail as <-. f_equal. lia.
      + destruct body; [discriminate|]. injection Hfail as <-. f_equal. lia. }
  split; [exact Hloop|]. unfold fetch_series_body. rewrite Hloop. reflexivity.
Qed.
End PageFailures.

(** The X1 theorem at a server whose second page answers 503: the fetch
    raises after two requests and the row of the first page is lost. *)
Lemma failed_second_page :
  fetch_pages broken_second_page_net "USA" "NY.GDP.MKTP.KD.ZG" 2 0 1 []
    = (Raise (RuntimeError 503), (0 + 2)%nat)
  /\ fetch_series_body broken_second_page_net read_decimal 2 0 "USA" "NY.GDP.MKTP.KD.ZG"
     = (Raise (RuntimeError 503), (0 + 2)%nat).
Proof.
  apply (failed_page_discards_rows broken_second_page_net "USA" "NY.GDP.MKTP.KD.ZG" 0
           (fun i => paging (Z.of_nat i) 2) (fun i => Z.of_nat i) (fun _ => 2)
           (fun _ => [usa_gdp (PStr "2019") (PFloat 2.3)]) 2 (RuntimeError 503)
           read_decimal 2).
  - lia.
  - intros j Hj. assert (j = 1%nat) as -> by lia. split.
    + unfold answered. cbn. repeat split.
    + unfold stops. cbn. intros [H | H]; [discriminate | lia].
  - reflexivity.
  - lia.
Defined.

(** ** Series without data, and what the caches keep *)

Section CacheFrame.
Variable net : network.
Variable read_number : string -> option Q.

(** X2.  A first page that carries no rows (no list, a list shorter than
    two, or falsy rows such as [null] or [[]]) makes the fetch return the
    empty frame after one request, and the empty frame is stored like any
    other. *)
Theorem series_without_data_is_empty_frame (fuel : nat) (c ind : string)
    (s : session) (payload : pyobj) :
  series_cache s !! (c, ind) = None ->
  net (clock s) (c, ind, 1) = Http 200 (Some payload) ->
  no_rows payload = true ->
  wb_fetch_series net read_number (S fuel) c ind s
  = (Ok [], {| clock := S (clock s); fetches := fetches s ++ [(c, ind)];
               series_cache := <[(c, ind) := []]> (series_cache s);
               multi_cache := multi_cache s; warnings := warnings s |}).
Proof.
  intros Hmiss Hnet Hno. unfold wb_fetch_series. rewrite Hmiss.
  unfold fetch_series_body. cbn [fetch_pages]. rewrite Hnet.
  cbn [Z.eqb Pos.eqb negb].
  destruct payload as [| | | | |l|]; try reflexivity.
  destruct l as [|m [|r [|x rest]]]; try reflexivity; cbn [no_rows] in Hno.
  - rewrite Hno. reflexivity.
  - discriminate.
Qed.

(** X3.  A call of the cached fetch changes the store at most at its own
    key: a stored frame stays stored, unchanged, and the entries of the
    other keys are as before. *)
Theorem series_cache_only_grows (fuel : nat) (c ind : string) (s : session) :
  let s1 := snd (wb_fetch_series net read_number fuel c ind s) in
  (forall k df, series_cache s !! k = Some df -> series_cache s1 !! k = Some df)
  /\ (forall k, k <> (c, ind) -> series_cache s1 !! k = series_cache s !! k)
  /\ multi_cache s1 = multi_cache s.
Proof.
  cbv zeta. unfold wb_fetch_series.
  destruct (series_cache s !! (c, ind)) as [df0|] eqn:Hlook.
  - cbn [snd]. auto.
  - destruct (fetch_series_body net read_number fuel (clock s) c ind) as [[df1|e|] t'];
      cbn [snd series_cache multi_cache]; auto.
    split; [|split; [|reflexivity]].
    + intros k df Hk. destruct (decide (k = (c, ind))) as [->|Hne].
      * congruence.
      * rewrite lookup_insert_ne by congruence. assumption.
    + intros k Hne. apply lookup_insert_ne. congruence.
Qed.

(** X4.  Once a batch has returned a frame, the same batch returns that
    frame again without a request and without running a fetch, whatever
    the network would answer then: pairs that failed in the first run are
    not tried again. *)
Theorem batch_is_memoised (fuel : nat) (countries_iso3 indicators : list string)
    (s s1 : session) (df : frame) :
  wb_fetch_multi net read_number fuel countries_iso3 indicators s = (Ok df, s1) ->
  forall (net' : network) (fuel' : nat),
    let out := wb_fetch_multi net' read_number fuel' countries_iso3 indicators s1 in
    fst out = Ok df
    /\ clock (snd out) = clock s1
    /\ fetches (snd out) = fetches s1
    /\ series_cache (snd out) = series_cache s1.
Proof.
  unfold wb_fetch_multi at 1.
  destruct (multi_cache s !! (countries_iso3, indicators)) as [[df0 msgs]|] eqn:Hlook.
  - intros [= <- <-] net' fuel'. cbv zeta. unfold wb_fetch_multi.
    cbn [multi_cache]. rewrite Hlook. cbn. auto.
  - destruct (fetch_multi_body net read_number fuel countries_iso3 indicators s)
      as [[df1|e|] s'] eqn:Hbody; try discriminate.
    intros [= <- <-] net' fuel'. cbv zeta. unfold wb_fetch_multi.
    cbn [multi_cache]. rewrite lookup_insert_eq. cbn. auto.
Qed.

(** X5.  A batch over no country, or over no indicator, returns the empty
    frame without a request and without a message. *)
Theorem empty_selection_fetches_nothing (fuel : nat) (names : list string)
    (s : session) :
  fetch_multi_body net read_number fuel [] names s = (Ok [], s)
  /\ fetch_multi_body net read_number fuel names [] s = (Ok [], s).
Proof.
  split; [reflexivity|].
  unfold fetch_multi_body, bind.
  assert (H : forall (frames : list frame),
            for_each names
              (fun (c : string) (frames0 : list frame) =>
                 for_each ([] : list string)
                   (fun (ind0 : string) (frames1 : list frame) =>
                      try_except
                        (bind (wb_fetch_series net read_number fuel c ind0)
                              (fun df => ret (frames1 ++ [df])))
                        (fun e => bind (st_warning (ind0, c, e)) (fun _ => ret frames1)))
                   frames0) frames s = (Ok frames, s)).
  { induction names as [|c rest IH]; intros frames; cbn [for_each].
    - reflexivity.
    - unfold bind at 1. unfold ret at 1. apply IH. }
  rewrite H. reflexivity.
Qed.
End CacheFrame.

(** The X2 theorem at the answer the World Bank gives for a series without
    data, [[{"page": 0, "pages": 0, ...}, null]]. *)
Lemma series_without_data_example :
  wb_fetch_series no_data_net read_decimal 1 "USA" "NY.GDP.MKTP.KD.ZG" new_session
  = (Ok [], {| clock := S (clock new_session);
               fetches := fetches new_session ++ [("USA", "NY.GDP.MKTP.KD.ZG")%string];
               series_cache := <[("USA", "NY.GDP.MKTP.KD.ZG")%string := []]>
                                 (series_cache new_session);
               multi_cache := multi_cache new_session;
               warnings := warnings new_session |}).
Proof.
  apply (series_without_data_is_empty_frame no_data_net read_decimal 0
           "USA" "NY.GDP.MKTP.KD.ZG" new_session (PList [PDict (paging 0 0); PNone]));
    reflexivity.
Defined.

(** The X4 theorem at the batch of [flaky_net], run again on a network that
    is down: the frame of the first run comes back. *)
Lemma batch_is_memoised_example :
  let out := wb_fetch_multi down_net read_decimal 0 ["USA"]
               ["FP.CPI.TOTL.ZG"; "NY.GDP.MKTP.KD.ZG"]%string
               (snd (wb_fetch_multi flaky_net read_decimal 5 ["USA"]
                       ["FP.CPI.TOTL.ZG"; "NY.GDP.MKTP.KD.ZG"]%string new_session)) in
  let s1 := snd (wb_fetch_multi flaky_net read_decimal 5 ["USA"]
                   ["FP.CPI.TOTL.ZG"; "NY.GDP.MKTP.KD.ZG"]%string new_session) in
  fst out = Ok [ {| country := PStr "United States"; countryiso3code := PStr "USA";
                    indicator := PStr "NY.GDP.MKTP.KD.ZG"; date := 2020;
                    value := Some 1.5%Q |} ]
  /\ clock (snd out) = clock s1
  /\ fetches (snd out) = fetches s1
  /\ series_cache (snd out) = series_cache s1.
Proof.
  cbv zeta.
  apply (batch_is_memoised flaky_net read_decimal 5 ["USA"]
           ["FP.CPI.TOTL.ZG"; "NY.GDP.MKTP.KD.ZG"]%string new_session).
  vm_compute. reflexivity.
Defined.

(** ** The frame of a series *)

Section FrameOfRows.
Variable read_number : string -> option Q.

Lemma make_records_In (all_rows : list pyobj) : forall (recs : list record),
  make_records all_rows = Ok recs ->
  forall x, In x recs -> exists a, In a all_rows /\ make_record a = Ok x.
Proof.
  induction all_rows as [|a rest IH]; intros recs Hrecs x Hx; cbn [make_records] in Hrecs.
  - injection Hrecs as <-. destruct Hx.
  - destruct (make_record a) as [x0|e|] eqn:Ha; try discriminate.
    destruct (make_records rest) as [xs|e|] eqn:Hrest; try discriminate.
    injection Hrecs as <-. destruct Hx as [<- | Hx].
    + exists a. split; [left; reflexivity | assumption].
    + destruct (IH xs eq_refl x Hx) as (a' & Hin & Hm).
      exists a'. split; [right; assumption | assumption].
Qed.

(** A loop that returns has issued at least one request. *)
Lemma fetch_pages_clock (net : network) (c ind : string) (fuel : nat) :
  forall (t : nat) (page : Z) (acc out : list pyobj) (t' : nat),
    fetch_pages net c ind fuel t page acc = (Ok out, t') -> (t < t')%nat.
Proof.
  induction fuel as [|fuel IH]; intros t page acc out t' Hrun;
    cbn [fetch_pages] in Hrun; [discriminate|].
  destruct (net t (c, ind, page)) as [|status_code body]; [discriminate|].
  destruct (negb (status_code =? 200)); [discriminate|].
  destruct body as [[| | | | |l|]|]; try discriminate;
    try (injection Hrun as _ <-; lia).
  destruct l as [|meta [|rows rest]]; try (injection Hrun as _ <-; lia).
  destruct rest; [|discriminate].
  destruct (negb (truthy rows)); [injection Hrun as _ <-; lia|].
  destruct (py_iter rows); [|discriminate].
  destruct (py_get meta "page" PNone); [|discriminate].
  destruct (py_get meta "pages" (PInt 1)); [|discriminate].
  destruct (py_ge _ _) as [[|]|]; [| |discriminate].
  - injection Hrun as _ <-. lia.
  - apply IH in Hrun. lia.
Qed.

(** The rows the page loop returns are those it started with and items of
    pages that the network sent during the loop. *)
Lemma fetch_pages_origin (net : network) (c ind : string) (fuel : nat) :
  forall (t : nat) (page : Z) (acc out : list pyobj) (t' : nat),
    fetch_pages net c ind fuel t page acc = (Ok out, t') ->
    forall a, In a out ->
      In a acc
      \/ exists (i : nat) (meta rows : pyobj) (items : list pyobj),
           (t <= i < t')%nat
           /\ net i (c, ind, page + Z.of_nat (i - t)) = Http 200 (Some (PList [meta; rows]))
           /\ py_iter rows = Some items
           /\ In a items.
Proof.
  induction fuel as [|fuel IH]; intros t page acc out t' Hrun a Ha;
    cbn [fetch_pages] in Hrun; [discriminate|].
  destruct (net t (c, ind, page)) as [|status_code body] eqn:Hnet; [discriminate|].
  destruct (negb (status_code =? 200)) eqn:Hstatus; [discriminate|].
  apply negb_false_iff, Z.eqb_eq in Hstatus. subst status_code.
  assert (Hstop : (Ok acc, S t) = (Ok out, t') -> In a acc).
  { intros [= <- _]. assumption. }
  destruct body as [[| | | | |l|]|]; try discriminate;
    try (left; exact (Hstop Hrun)).
  destruct l as [|meta [|rows rest]];
    try (left; exact (Hstop Hrun)).
  destruct rest as [|x rest]; [|discriminate].
  destruct (negb (truthy rows)); [left; exact (Hstop Hrun)|].
  destruct (py_iter rows) as [items|] eqn:Hitems; [|discriminate].
  destruct (py_get meta "page" PNone) as [p|]; [|discriminate].
  destruct (py_get meta "pages" (PInt 1)) as [ps|]; [|discriminate].
  assert (Hhere : forall t1, (S t <= t1)%nat -> In a items ->
            exists (i : nat) (meta0 rows0 : pyobj) (items0 : list pyobj),
              (t <= i < t1)%nat
              /\ net i (c, ind, page + Z.of_nat (i - t))
                 = Http 200 (Some (PList [meta0; rows0]))
              /\ py_iter rows0 = Some items0
              /\ In a items0).
  { intros t1 Ht1 Hin. exists t, meta, rows, items.
    rewrite Nat.sub_diag, Z.add_0_r. repeat split; try assumption; lia. }
  destruct (py_ge p ps) as [[|]|]; [| |discriminate].
  - injection Hrun as <- <-. apply in_app_or in Ha as [Ha | Ha].
    + left. assumption.
    + right. apply Hhere; [lia | assumption].
  - pose proof (fetch_pages_clock _ _ _ _ _ _ _ _ _ Hrun) as Hmono.
    destruct (IH _ _ _ _ _ Hrun a Ha) as [Hin | (i & m & r & its & Hi & Hn & Hit & Hin)].
    + apply in_app_or in Hin as [Hin | Hin].
      * left. assumption.
      * right. apply Hhere; [lia | assumption].
    + right. exists i, m, r, its. repeat split; try assumption; try lia.
      replace (page + Z.of_nat (i - t)) with (page + 1 + Z.of_nat (i - S t)) by lia.
      assumption.
Qed.

(** The year of a record was let through by the guard of line 100 and read
    by [int]. *)
Lemma make_record_date (a : pyobj) (x : record) (z : Z) :
  make_record a = Ok x -> rec_date x = Some z ->
  exists d, py_get a "date" PNone = Some d
    /\ date_guard d = true /\ py_int d = Some z.
Proof.
  unfold make_record. intros Hx Hz.
  destruct (get_nested a "country" "value"); [|discriminate].
  destruct (py_get a "countryiso3code" PNone); [|discriminate].
  destruct (get_nested a "indicator" "id"); [|discriminate].
  destruct (py_get a "date" PNone) as [d|]; [|discriminate].
  destruct (parse_date d) as [date| |] eqn:Hd; try discriminate.
  destruct (py_get a "value" PNone); [|discriminate].
  injection Hx as <-. cbn [rec_date] in Hz. subst date.
  exists d. split; [reflexivity|]. unfold parse_date in Hd. unfold date_guard.
  destruct (truthy d && str_isdigit d); [|discriminate].
  split; [reflexivity|]. destruct (py_int d); [|discriminate].
  injection Hd as ->. reflexivity.
Qed.

(** X6.  A frame that the body of [wb_fetch_series] returns is in
    ascending order of year, and each of its rows stems from an item of the
    rows of a page that the network sent during the call: the year of the
    item passed the guard of line 100 and the row has what [int] read from
    it, and the row carries the labels of the item and its value through
    [to_numeric]. *)
Theorem fetched_frame_is_sorted_and_parsed (net : network) (fuel t t' : nat)
    (c ind : string) (df : frame) :
  fetch_series_body net read_number fuel t c ind = (Ok df, t') ->
  Sorted by_year df
  /\ forall r, In r df ->
       exists a d x,
         sent_row net c ind t t' a
         /\ py_get a "date" PNone = Some d
         /\ date_guard d = true
         /\ py_int d = Some (date r)
         /\ make_record a = Ok x
         /\ rec_date x = Some (date r)
         /\ country r = rec_country x
         /\ countryiso3code r = rec_countryiso3code x
         /\ indicator r = rec_indicator x
         /\ value r = to_numeric read_number (rec_value x).
Proof.
  unfold fetch_series_body.
  destruct (fetch_pages net c ind fuel t 1 []) as [[all_rows|e|] t1] eqn:Hpages;
    try discriminate.
  intros [= Hframe ->]. split; [eapply frame_of_rows_sorted; eassumption|].
  unfold frame_of_rows in Hframe. destruct all_rows as [|a0 rest].
  - injection Hframe as <-. intros r [].
  - destruct (make_records (a0 :: rest)) as [recs|e|] eqn:Hrecs; try discriminate.
    injection Hframe as <-. intros r Hr.
    apply (Permutation_in _ (Permutation_sym (sort_values_date_perm _))) in Hr.
    apply dropna_date_In in Hr as (x & Hx & Hd & Hrow).
    destruct (make_records_In _ _ Hrecs x Hx) as (a & Hin & Ha).
    destruct (make_record_date _ _ _ Ha Hd) as (d & Hget & Hguard & Hint).
    destruct (fetch_pages_origin _ _ _ _ _ _ _ _ _ Hpages a Hin) as [[] | Hsent].
    exists a, d, x. rewrite Hrow. cbn.
    repeat split; assumption.
Qed.

Lemma int_of_digits_total (cs : list ascii) : forall acc,
  forallb is_decimal cs = true -> exists z, int_of_digits acc cs = Some z.
Proof.
  induction cs as [|ch cs IH]; intros acc H; cbn in *.
  - eauto.
  - apply andb_true_iff in H as [Hc Hcs]. rewrite Hc. apply IH. assumption.
Qed.

Lemma get_nested_dict_or_missing (kvs : list (string * pyobj)) (k sub : string) :
  dict_or_missing kvs k = true -> exists v, get_nested (PDict kvs) k sub = Some v.
Proof.
  unfold dict_or_missing, get_nested, py_get.
  destruct (assoc k kvs) as [[| | | | | |d]|]; try discriminate; eauto.
Qed.

Lemma parse_date_readable (d : pyobj) :
  readable_year d = true ->
  if date_guard d then exists z, parse_date d = Ok (Some z) else parse_date d = Ok None.
Proof.
  intros Hd. unfold parse_date, date_guard.
  destruct (truthy d && str_isdigit d) eqn:Hg; [|reflexivity].
  apply andb_true_iff in Hg as [_ Hg].
  destruct d as [| |z| |sd| |]; cbn [str_isdigit] in Hg; try discriminate.
  - cbn. eauto.
  - cbn [readable_year] in Hd. rewrite Hg in Hd.
    apply andb_true_iff in Hd as [Hdec Hlen]. apply Z.leb_le in Hlen.
    cbn [py_int].
    assert (Hcap : (Z.of_nat (String.length sd) <=? int_max_str_digits) = true).
    { apply Z.leb_le. unfold int_max_str_digits, year_digits in *. lia. }
    rewrite Hcap. destruct (int_of_digits_total _ 0 Hdec) as (z & ->). eauto.
Qed.

(** On a well-formed row the comprehension builds its dict, with a year
    exactly when the guard lets the year through. *)
Lemma make_record_well_formed (a : pyobj) :
  well_formed_row a = true ->
  exists x, make_record a = Ok x
    /\ (if row_date_guard a then exists z, rec_date x = Some z else rec_date x = None).
Proof.
  destruct a as [| | | | | |kvs]; try discriminate. cbn [well_formed_row row_date_guard].
  intros H. apply andb_true_iff in H as [H _]. apply andb_true_iff in H as [H Hdate].
  apply andb_true_iff in H as [Hc Hi].
  destruct (get_nested_dict_or_missing kvs "country" "value" Hc) as (cv & Hcv).
  destruct (get_nested_dict_or_missing kvs "indicator" "id" Hi) as (iv & Hiv).
  unfold make_record. rewrite Hcv, Hiv. cbn [py_get]. fold (entry kvs "countryiso3code").
  fold (entry kvs "date"). fold (entry kvs "value").
  pose proof (parse_date_readable _ Hdate) as Hp.
  destruct (date_guard (entry kvs "date")).
  - destruct Hp as (z & ->). eexists. split; [reflexivity|]. cbn. eauto.
  - rewrite Hp. eexists. split; reflexivity.
Qed.

Lemma dropna_date_length (recs : list record) :
  length (dropna_date read_number recs)
  = length (List.filter (fun x => match rec_date x with Some _ => true | None => false end) recs).
Proof.
  induction recs as [|x recs IH]; cbn [dropna_date List.filter]; [reflexivity|].
  destruct (rec_date x); cbn [length]; congruence.
Qed.

Lemma make_records_well_formed (all_rows : list pyobj) :
  forallb well_formed_row all_rows = true ->
  exists recs, make_records all_rows = Ok recs
    /\ length (List.filter (fun x => match rec_date x with Some _ => true | None => false end) recs)
       = length (List.filter row_date_guard all_rows).
Proof.
  induction all_rows as [|a rest IH]; intros Hwf; cbn [forallb] in Hwf.
  - exists []. split; reflexivity.
  - apply andb_true_iff in Hwf as [Ha Hrest].
    destruct (make_record_well_formed a Ha) as (x & Hx & Hdate).
    destruct (IH Hrest) as (recs & Hrecs & Hlen).
    exists (x :: recs). cbn [make_records]. rewrite Hx, Hrecs. split; [reflexivity|].
    cbn [List.filter]. destruct (row_date_guard a).
    + destruct Hdate as (z & ->). cbn [length]. congruence.
    + rewrite Hdate. assumption.
Qed.

(** A year of 4301 decimal digits passes the guard and is refused by
    [int]: the row raises [ValueError]. *)
Example year_beyond_cap_raises :
  let year := PStr (string_of_list_ascii (repeat "1"%char 4301)) in
  date_guard year = true /\ parse_date year = Raise ValueError.
Proof. vm_compute. split; reflexivity. Qed.

(** X7.  When every API row is well formed (an object whose [country] and
    [indicator] are objects or missing, whose value is a scalar, and whose
    year is a scalar that, if it is a str of digit characters, is a decimal
    numeral of at most 18 digits), building the frame raises nothing: the
    rows whose year does not pass the guard are dropped one by one and the
    frame has one row for each of the others. *)
Theorem well_formed_rows_never_fail (all_rows : list pyobj) :
  forallb well_formed_row all_rows = true ->
  exists df, frame_of_rows read_number all_rows = Ok df
    /\ length df = length (List.filter row_date_guard all_rows).
Proof.
  intros Hwf. unfold frame_of_rows. destruct all_rows as [|a rest].
  - exists []. split; reflexivity.
  - destruct (make_records_well_formed _ Hwf) as (recs & -> & Hlen).
    eexists. split; [reflexivity|].
    rewrite <- (Permutation_length (sort_values_date_perm _)), dropna_date_length.
    exact Hlen.
Qed.
End FrameOfRows.

(** The X6 theorem at the two pages of [two_page_net]: the rows come back
    in the order 2018, 2019, although the pages list 2019 first. *)
Lemma fetched_frame_example :
  let df := [ {| country := PStr "United States"; countryiso3code := PStr "USA";
                 indicator := PStr "NY.GDP.MKTP.KD.ZG"; date := 2018;
                 value := Some 2.9%Q |};
              {| country := PStr "United States"; countryiso3code := PStr "USA";
                 indicator := PStr "NY.GDP.MKTP.KD.ZG"; date := 2019;
                 value := Some 2.3%Q |} ] in
  Sorted by_year df
  /\ forall r, In r df ->
       exists a d x,
         sent_row two_page_net "USA" "NY.GDP.MKTP.KD.ZG" 0 2 a
         /\ py_get a "date" PNone = Some d
         /\ date_guard d = true
         /\ py_int d = Some (date r)
         /\ make_record a = Ok x
         /\ rec_date x = Some (date r)
         /\ country r = rec_country x
         /\ countryiso3code r = rec_countryiso3code x
         /\ indicator r = rec_indicator x
         /\ value r = to_numeric read_decimal (rec_value x).
Proof.
  cbv zeta.
  apply (fetched_frame_is_sorted_and_parsed read_decimal two_page_net 2 0 2
           "USA" "NY.GDP.MKTP.KD.ZG").
  reflexivity.
Defined.

(** The X7 theorem at four rows, of which one has the year ["n/a"] and one
    has no year: the frame has the two remaining rows, one with a str year
    and one with an int year. *)
Lemma well_formed_rows_example :
  exists df,
    frame_of_rows read_decimal
      [usa_gdp (PStr "2019") (PFloat 2.3); usa_gdp (PStr "n/a") PNone;
       usa_gdp PNone (PFloat 1.5); usa_gdp (PInt 2021) (PInt 3)] = Ok df
    /\ length df
       = length (List.filter row_date_guard
                   [usa_gdp (PStr "2019") (PFloat 2.3); usa_gdp (PStr "n/a") PNone;
                    usa_gdp PNone (PFloat 1.5); usa_gdp (PInt 2021) (PInt 3)]).
Proof.
  apply (well_formed_rows_never_fail read_decimal
           [usa_gdp (PStr "2019") (PFloat 2.3); usa_gdp (PStr "n/a") PNone;
            usa_gdp PNone (PFloat 1.5); usa_gdp (PInt 2021) (PInt 3)]).
  vm_compute. reflexivity.
Defined.

(** * Further properties of the transform and analytics stages *)

(** ** What the z-score does to a group *)

Section Standardise.
Local Open Scope R_scope.

Lemma present_map (g : cell -> cell) (h : R -> R) (s : list cell) :
  (forall x, g (Val x) = Val (h x)) -> g NaN = NaN ->
  present (map g s) = map h (present s).
Proof.
  intros Hval Hnan. induction s as [|[x|] s IH]; cbn [map present].
  - reflexivity.
  - rewrite Hval. cbn [present]. rewrite IH. reflexivity.
  - rewrite Hnan. cbn [present]. exact IH.
Qed.

Lemma rsum_nonneg (xs : list R) : (forall x, In x xs -> 0 <= x) -> 0 <= rsum xs.
Proof.
  unfold rsum. induction xs as [|x xs IH]; intros Hall; cbn [fold_right].
  - lra.
  - assert (0 <= x) by (apply Hall; left; reflexivity).
    assert (0 <= fold_right Rplus 0 xs) by (apply IH; intros y Hy; apply Hall; right; assumption).
    lra.
Qed.

Lemma ssd_nonneg (xs : list R) : 0 <= ssd xs.
Proof.
  unfold ssd. apply rsum_nonneg. intros y Hy.
  apply in_map_iff in Hy as (x & <- & _).
  change (0 <= Rsqr (x - mean xs)). apply Rle_0_sqr.
Qed.

(** A group with a standard deviation has at least two present values, and
    the square of the deviation is the sample variance. *)
Lemma s_std_inv (s : list cell) (sd : R) :
  s_std s = Val sd ->
  (2 <= length (present s))%nat
  /\ sd = sqrt (ssd (present s) / (INR (length (present s)) - 1))
  /\ 0 <= ssd (present s) / (INR (length (present s)) - 1)
  /\ sd * sd = ssd (present s) / (INR (length (present s)) - 1).
Proof.
  unfold s_std. destruct (length (present s) <? 2)%nat eqn:Hlt; [discriminate|].
  apply Nat.ltb_ge in Hlt. intros [= <-].
  assert (Hn : 1 < INR (length (present s))).
  { apply (lt_INR 1). lia. }
  assert (Hv : 0 <= ssd (present s) / (INR (length (present s)) - 1)).
  { apply Rmult_le_pos; [apply ssd_nonneg|].
    apply Rlt_le, Rinv_0_lt_compat. lra. }
  repeat split; try assumption. apply sqrt_sqrt. assumption.
Qed.

(** The present values of the normalised series of a group with nonzero
    deviation. *)
Lemma present_zscore (s : list cell) (sd : R) :
  s_std s = Val sd -> sd <> 0 ->
  present (zscore s) = map (fun x => (x - mean (present s)) / sd) (present s).
Proof.
  intros Hsd Hnz. destruct (s_std_inv s sd Hsd) as (Hlen & _).
  unfold zscore. rewrite Hsd, (s_mean_present _ Hlen).
  unfold in_0_None. destruct (Req_dec_T sd 0) as [Hz|_]; [contradiction|].
  cbn [negb]. apply present_map.
  - intros x. cbn [csub cdiv]. destruct (Req_dec_T sd 0) as [Hz|_]; [contradiction|].
    reflexivity.
  - reflexivity.
Qed.

Lemma rsum_scaled_dev (a b : R) (xs : list R) :
  rsum (map (fun x => (x - a) / b) xs) = (rsum xs - INR (length xs) * a) / b.
Proof.
  unfold rsum, Rdiv. induction xs as [|x xs IH].
  - cbn. ring.
  - cbn [map fold_right length]. rewrite IH, S_INR. ring.
Qed.

Lemma sum_sq_scaled_dev (a b : R) (xs : list R) :
  b <> 0 ->
  sum_sq (map (fun x => (x - a) / b) xs)
  = rsum (map (fun x => (x - a) * (x - a)) xs) / (b * b).
Proof.
  intros Hb. unfold sum_sq, rsum. induction xs as [|x xs IH].
  - cbn. field. assumption.
  - cbn [map fold_right]. cbn [map fold_right] in IH. rewrite IH. field. assumption.
Qed.

(** X8.  For a group whose standard deviation is a nonzero number, the
    normalised values have mean 0 and standard deviation 1. *)
Theorem zscore_standardises (s : list cell) (sd : R) :
  s_std s = Val sd -> sd <> 0 ->
  s_mean (zscore s) = Val 0 /\ s_std (zscore s) = Val 1.
Proof.
  intros Hsd Hnz.
  destruct (s_std_inv s sd Hsd) as (Hlen & _ & Hv & Hsq).
  pose proof (present_zscore s sd Hsd Hnz) as Hz.
  set (xs := present s) in *. set (m := mean xs) in *.
  set (zs := map (fun x => (x - m) / sd) xs) in *.
  assert (Hn : 1 < INR (length xs)) by (apply (lt_INR 1); lia).
  assert (Hlz : length zs = length xs) by (unfold zs; apply length_map).
  assert (Hmean : mean zs = 0).
  { unfold mean at 1. rewrite Hlz. unfold zs. rewrite rsum_scaled_dev.
    unfold m, mean. field. split; lra. }
  assert (Hssd : ssd zs = ssd xs / (sd * sd)).
  { unfold ssd at 1. rewrite dev_squares, Hmean.
    unfold zs at 1. rewrite (sum_sq_scaled_dev m sd xs Hnz).
    unfold ssd. fold m. ring. }
  split.
  - unfold s_mean. rewrite Hz. destruct zs as [|z zs'] eqn:Hzs.
    + cbn in Hlz. lia.
    + rewrite Hmean. reflexivity.
  - unfold s_std. rewrite Hz, Hlz.
    destruct (length xs <? 2)%nat eqn:Hlt; [apply Nat.ltb_lt in Hlt; lia|].
    f_equal. transitivity (sqrt 1); [|apply sqrt_1]. f_equal. rewrite Hssd.
    assert (Hx : ssd xs = sd * sd * (INR (length xs) - 1)).
    { rewrite Hsq. field. lra. }
    rewrite Hx. field. split; [assumption | lra].
Qed.
End Standardise.

(** The X8 theorem at the series 10, (missing), 20, 30. *)
Lemma zscore_standardises_sample :
  s_mean (zscore [Val 10; NaN; Val 20; Val 30]) = Val 0
  /\ s_std (zscore [Val 10; NaN; Val 20; Val 30]) = Val 1.
Proof.
  apply (zscore_standardises [Val 10; NaN; Val 20; Val 30] 10%R).
  - unfold s_std. cbn [present length Nat.ltb Nat.leb]. f_equal.
    transitivity (sqrt (10 * 10)); [|apply sqrt_square; lra]. f_equal.
    unfold ssd, mean, rsum. cbn [map fold_right length INR]. field.
  - lra.
Defined.

Section Alignment.
Local Open Scope R_scope.

Lemma scatter_length (f : list cell -> list cell) (data : list obs) :
  forall (rest seen : list obs), length (scatter f data seen rest) = length rest.
Proof.
  induction rest as [|r rest IH]; intros seen; cbn [scatter length]; [reflexivity|].
  rewrite IH. reflexivity.
Qed.

(** X10.  The normalised column has one cell per row of the frame, and a
    row whose country code or indicator is missing, which is in no group,
    gets NaN. *)
Theorem normalised_column_is_aligned (data : list obs) :
  length (value_norm data) = length data
  /\ forall i r, nth_error data i = Some r -> group_key r = None ->
       nth i (value_norm data) NaN = NaN.
Proof.
  split.
  - unfold value_norm, transform. apply scatter_length.
  - intros i r Hnth Hk. eapply value_norm_no_group; eassumption.
Qed.
End Alignment.

(** ** The correlation matrix: diagonal and range *)

Section CorrelationRange.
Local Open Scope R_scope.

Lemma joint_self (xs : list cell) :
  joint xs xs = map (fun x => (x, x)) (present xs).
Proof.
  induction xs as [|[x|] xs IH]; cbn [joint present map].
  - reflexivity.
  - rewrite IH. reflexivity.
  - exact IH.
Qed.

Lemma rint_100 : rint (1 * 100) = 100%Z.
Proof.
  assert (Hint : Int_part (1 * 100) = 100%Z).
  { symmetry. apply Int_part_spec. split; lra. }
  unfold rint, frac_part. rewrite Hint.
  destruct (Rlt_dec (1 * 100 - 100) (1 / 2)) as [_|H]; [reflexivity | lra].
Qed.

(** A column against itself: 1 when its present values vary, NaN when they
    do not (or when there are fewer than two). *)
Lemma pearson_self (xs : list R) :
  (ssd xs = 0 -> pearson (map (fun x => (x, x)) xs) = NaN)
  /\ (ssd xs <> 0 -> pearson (map (fun x => (x, x)) xs) = Val 1).
Proof.
  unfold pearson. rewrite !map_map. cbn [fst snd]. rewrite map_id.
  assert (Hden : sqrt (ssd xs * ssd xs) = ssd xs) by (apply sqrt_square, ssd_nonneg).
  rewrite Hden. fold (ssd xs). split; intros Hs.
  - destruct xs; cbn [map]; [reflexivity|].
    destruct (Req_dec_T (ssd (r :: xs)) 0); [reflexivity | contradiction].
  - destruct xs as [|x xs]; cbn [map].
    + exfalso. apply Hs. reflexivity.
    + destruct (Req_dec_T (ssd (x :: xs)) 0) as [H0|_]; [contradiction|].
      f_equal. field. assumption.
Qed.

(** X11.  On the diagonal of the displayed matrix a column whose present
    values vary has 1, and a column whose present values do not vary
    (constant, single-valued or empty) has NaN. *)
Theorem correlation_diagonal (w : wide) (i : nat) :
  (i < length (columns w))%nat ->
  let xs := present (snd (nth i (columns w) (("", "")%string, []))) in
  (ssd xs = 0 -> nth i (nth i (displayed_corr w) []) NaN = NaN)
  /\ (ssd xs <> 0 -> nth i (nth i (displayed_corr w) []) NaN = Val 1).
Proof.
  intros Hi xs. rewrite (displayed_corr_nth w i i Hi Hi). cbv zeta.
  rewrite joint_self. fold xs. destruct (pearson_self xs) as [Hz Hnz]. split; intros Hs.
  - rewrite (Hz Hs). reflexivity.
  - rewrite (Hnz Hs). unfold round2. rewrite rint_100. f_equal. field.
Qed.

(** Cauchy and Schwarz, for the sums over a list of pairs. *)
Lemma quadratic_sum (ps : list (R * R)) (t : R) :
  rsum (map (fun p => (fst p * t + snd p) * (fst p * t + snd p)) ps)
  = rsum (map (fun p => fst p * fst p) ps) * t * t
    + 2 * rsum (map (fun p => fst p * snd p) ps) * t
    + rsum (map (fun p => snd p * snd p) ps).
Proof.
  unfold rsum. induction ps as [|[a b] ps IH]; cbn [map fold_right fst snd].
  - ring.
  - rewrite IH. ring.
Qed.

Lemma quadratic_sum_nonneg (ps : list (R * R)) (t : R) :
  0 <= rsum (map (fun p => (fst p * t + snd p) * (fst p * t + snd p)) ps).
Proof.
  apply rsum_nonneg. intros y Hy. apply in_map_iff in Hy as (p & <- & _).
  apply Rle_0_sqr.
Qed.

Lemma cauchy_schwarz (ps : list (R * R)) :
  rsum (map (fun p => fst p * snd p) ps) * rsum (map (fun p => fst p * snd p) ps)
  <= rsum (map (fun p => fst p * fst p) ps) * rsum (map (fun p => snd p * snd p) ps).
Proof.
  set (A := rsum (map (fun p => fst p * fst p) ps)).
  set (B := rsum (map (fun p => snd p * snd p) ps)).
  set (C := rsum (map (fun p => fst p * snd p) ps)).
  assert (Hq : forall t, 0 <= A * t * t + 2 * C * t + B).
  { intros t. unfold A, B, C. rewrite <- quadratic_sum. apply quadratic_sum_nonneg. }
  assert (HA : 0 <= A).
  { unfold A. apply rsum_nonneg. intros y Hy. apply in_map_iff in Hy as (p & <- & _).
    apply Rle_0_sqr. }
  destruct (Req_dec_T A 0) as [HA0 | HA0].
  - rewrite HA0 in *. destruct (Req_dec_T C 0) as [HC0 | HC0].
    + rewrite HC0. lra.
    + exfalso. specialize (Hq (- (B + 1) / (2 * C))).
      replace (0 * (- (B + 1) / (2 * C)) * (- (B + 1) / (2 * C))
               + 2 * C * (- (B + 1) / (2 * C)) + B) with (-1) in Hq by (field; assumption).
      lra.
  - assert (HApos : 0 < A) by lra.
    specialize (Hq (- C / A)).
    replace (A * (- C / A) * (- C / A) + 2 * C * (- C / A) + B)
      with ((A * B - C * C) / A) in Hq by (field; assumption).
    assert (H : 0 <= (A * B - C * C) / A * A) by (apply Rmult_le_pos; lra).
    replace ((A * B - C * C) / A * A) with (A * B - C * C) in H by (field; assumption).
    lra.
Qed.

(** Pearson's coefficient, when defined, lies between -1 and 1. *)
Lemma pearson_range (ps : list (R * R)) (x : R) :
  pearson ps = Val x -> -1 <= x <= 1.
Proof.
  unfold pearson. destruct ps as [|p0 ps0]; [discriminate|].
  set (ps := p0 :: ps0).
  set (mx := mean (map fst ps)). set (my := mean (map snd ps)).
  set (den := sqrt (ssd (map fst ps) * ssd (map snd ps))).
  set (num := rsum (map (fun p => (fst p - mx) * (snd p - my)) ps)).
  destruct (Req_dec_T den 0) as [|Hden]; [discriminate|]. intros [= <-].
  pose proof (cauchy_schwarz (map (fun p => (fst p - mx, snd p - my)) ps)) as Hcs.
  rewrite !map_map in Hcs. cbn [fst snd] in Hcs. fold num in Hcs.
  assert (Hsx : ssd (map fst ps) = rsum (map (fun p => (fst p - mx) * (fst p - mx)) ps)).
  { unfold ssd. rewrite map_map. reflexivity. }
  assert (Hsy : ssd (map snd ps) = rsum (map (fun p => (snd p - my) * (snd p - my)) ps)).
  { unfold ssd. rewrite map_map. reflexivity. }
  rewrite <- Hsx, <- Hsy in Hcs.
  assert (Hprod : 0 <= ssd (map fst ps) * ssd (map snd ps))
    by (apply Rmult_le_pos; apply ssd_nonneg).
  assert (Hden2 : den * den = ssd (map fst ps) * ssd (map snd ps))
    by (apply sqrt_sqrt; assumption).
  assert (Hpos : 0 < den).
  { pose proof (sqrt_pos (ssd (map fst ps) * ssd (map snd ps))). fold den in H. lra. }
  assert (Hnum : - den <= num <= den) by nra.
  assert (Hinv : 0 < / den) by (apply Rinv_0_lt_compat; assumption).
  unfold Rdiv. split.
  - replace (-1) with (- den * / den) by (field; lra). apply Rmult_le_compat_r; lra.
  - replace 1 with (den * / den) by (field; lra). apply Rmult_le_compat_r; lra.
Qed.

Lemma rint_range (x : R) :
  -100 <= x <= 100 -> (-100 <= rint x <= 100)%Z.
Proof.
  intros [Hlo Hhi]. destruct (base_Int_part x) as [Hle Hgt].
  assert (Hf_hi : (Int_part x <= 100)%Z) by (apply le_IZR; lra).
  assert (Hf_lo : (-101 < Int_part x)%Z) by (apply lt_IZR; lra).
  unfold rint, frac_part.
  destruct (Rlt_dec (x - IZR (Int_part x)) (1 / 2)) as [_|Hfrac]; [lia|].
  assert (Hup : (Int_part x < 100)%Z) by (apply lt_IZR; lra).
  destruct (Rlt_dec (1 / 2) (x - IZR (Int_part x))); [lia|].
  destruct (Z.even (Int_part x)); lia.
Qed.

Lemma round2_range (c : cell) (x : R) :
  c = Val x -> -1 <= x <= 1 ->
  exists y, round2 c = Val y /\ -1 <= y <= 1.
Proof.
  intros -> Hx. cbn [round2]. eexists. split; [reflexivity|].
  destruct (rint_range (x * 100)) as [Hlo Hhi]; [lra|].
  apply IZR_le in Hlo, Hhi. lra.
Qed.

(** X12.  Every cell of the displayed matrix is NaN or a number between -1
    and 1. *)
Theorem correlation_within_bounds (w : wide) (i j : nat) :
  (i < length (columns w))%nat -> (j < length (columns w))%nat ->
  nth j (nth i (displayed_corr w) []) NaN = NaN
  \/ exists x, nth j (nth i (displayed_corr w) []) NaN = Val x /\ -1 <= x <= 1.
Proof.
  intros Hi Hj. rewrite (displayed_corr_nth w i j Hi Hj). cbv zeta.
  destruct (pearson _) as [x|] eqn:Hp.
  - right. apply (round2_range (Val x) x eq_refl). eapply pearson_range. eassumption.
  - left. reflexivity.
Qed.
End CorrelationRange.

(** The X11 theorem at the first column of [corr_sample]. *)
Lemma correlation_diagonal_sample :
  (ssd [4; 0; 0; 0]%R = 0%R -> nth 0 (nth 0 (displayed_corr corr_sample) []) NaN = NaN)
  /\ (ssd [4; 0; 0; 0]%R <> 0%R ->
      nth 0 (nth 0 (displayed_corr corr_sample) []) NaN = Val 1).
Proof.
  apply (correlation_diagonal corr_sample 0). cbn [length columns corr_sample]. lia.
Defined.

(** The X12 theorem at the two columns of [corr_sample]. *)
Lemma correlation_within_bounds_sample :
  nth 1 (nth 0 (displayed_corr corr_sample) []) NaN = NaN
  \/ exists x, nth 1 (nth 0 (displayed_corr corr_sample) []) NaN = Val x
               /\ (-1 <= x <= 1)%R.
Proof.
  apply (correlation_within_bounds corr_sample 0 1);
    cbn [length columns corr_sample]; lia.
Defined.

(** ** The cells of the wide table *)

Section WideCells.
Variable indicator_codes : list string.
Variable norm : bool.
Variable data : list obs.

Lemma filter_filter_implied {A : Type} (f g : A -> bool) (l : list A) :
  (forall x, In x l -> f x = true -> g x = true) ->
  List.filter f (List.filter g l) = List.filter f l.
Proof.
  induction l as [|x l IH]; intros Himp; cbn [List.filter]; [reflexivity|].
  assert (IH' : List.filter f (List.filter g l) = List.filter f l)
    by (apply IH; intros y Hy; apply Himp; right; assumption).
  destruct (g x) eqn:Hg; cbn [List.filter].
  - rewrite IH'. reflexivity.
  - destruct (f x) eqn:Hf; [|exact IH'].
    rewrite (Himp x (or_introl eq_refl) Hf) in Hg. discriminate.
Qed.

(** The rows of a (year, label) group all carry the indicator whose name is
    in the label, so selecting that indicator first loses none of them. *)
Lemma group_of_selected (ind : string) (y : Z) (l : label) :
  name_map ind = Some (snd l) ->
  List.filter (in_pivot_group (y, l)) (select_indicator ind (with_ycol norm data))
  = List.filter (in_pivot_group (y, l)) (with_ycol norm data).
Proof.
  intros Hname. unfold select_indicator. apply filter_filter_implied.
  intros [r c] _ Hg. cbn [fst]. apply in_pivot_group_true in Hg. cbn [fst] in Hg.
  apply has_indicator_true.
  unfold pivot_key, indicator_name in Hg.
  destruct (obs_country r); [|discriminate].
  destruct (obs_indicator r) as [ind'|]; [|discriminate].
  destruct (name_map ind') as [n|] eqn:Hn; [|discriminate].
  injection Hg as _ Hl. f_equal. apply (name_map_inj ind' ind n); [assumption|].
  rewrite Hname, <- Hl. reflexivity.
Qed.

Lemma wide_all_cell (l : label) (cells : list cell) (y : Z) :
  In (l, cells) (columns (wide_all indicator_codes norm data)) ->
  at_year (index (wide_all indicator_codes norm data)) cells y
  = s_mean (map snd (List.filter (in_pivot_group (y, l)) (with_ycol norm data))).
Proof.
  unfold wide_all. intros Hin.
  apply concat_axis1_columns in Hin as (w & cells0 & Hw & Hc & ->).
  cbn [concat_axis1 index]. rewrite reindexed_cell by assumption.
  apply in_map_iff in Hw as (ind & <- & Hind).
  destruct (pivot_cell _ l cells0 y Hc) as [_ ->]. unfold group_cells.
  rewrite group_of_selected; [reflexivity|].
  apply (part_label_name norm data ind l).
  apply in_map_iff. exists (l, cells0). split; [reflexivity | assumption].
Qed.

End WideCells.


(** * The sidebar and the KPI row *)

(** ** Definitions *)

(** [COUNTRIES] (lines 36-51): name and ISO-3 code. *)
Definition COUNTRIES : list (string * string) :=
  [ ("United States", "USA"); ("Euro Area", "EMU"); ("United Kingdom", "GBR");
    ("Germany", "DEU"); ("France", "FRA"); ("Italy", "ITA"); ("Spain", "ESP");
    ("Japan", "JPN"); ("China", "CHN"); ("India", "IND"); ("Brazil", "BRA");
    ("Canada", "CAN"); ("Australia", "AUS") ]%string.

(** The texts of the multiselect hold a character outside the range of
    [string] (the dash U+2014), so they are lists of code points. *)
Definition code_points (s : string) : list Z :=
  map (fun ch => Z.of_nat (nat_of_ascii ch)) (list_ascii_of_string s).

(** The separator [" — "] of lines 145-150. *)
Definition separator : list Z := [32; 8212; 32].

(** [f"{k} — {label}"]. *)
Definition option_text (k lab : list Z) : list Z := k ++ separator ++ lab.

(** The options of the indicator multiselect (line 145). *)
Definition indicator_options : list (list Z) :=
  map (fun kv => option_text (code_points (fst kv)) (code_points (fst (snd kv))))
      INDICATORS.

Fixpoint is_prefix (p s : list Z) : bool :=
  match p, s with
  | [], _ => true
  | _ :: _, [] => false
  | a :: p', b :: s' => (a =? b) && is_prefix p' s'
  end.

(** [s.split(sep)[0]] for a non-empty [sep]: the text before the first
    occurrence of [sep], all of [s] when there is none. *)
Fixpoint before_first (sep s : list Z) : list Z :=
  if is_prefix sep s then []
  else match s with
       | [] => []
       | ch :: s' => ch :: before_first sep s'
       end.

(** [opt.split(" — ")[0]] (line 150). *)
Definition indicator_code (opt : list Z) : list Z := before_first separator opt.

(** [data[(data["countryiso3code"] == iso) & (data["indicator"] == ind)]]
    (line 186); [iso] is [COUNTRIES.get(...)], [None] when the name is no
    key, and then no row compares equal. *)
Definition kpi_select (iso : option string) (ind : string) (r : obs) : bool :=
  match iso, obs_countryiso3code r with
  | Some a, Some b => String.eqb b a && has_indicator ind r
  | _, _ => false
  end.

(** [sort_values("date")] on the frame [data], as an insertion sort that
    keeps rows of one year in their order. *)
Fixpoint insert_obs (r : obs) (sorted : list obs) : list obs :=
  match sorted with
  | [] => [r]
  | x :: rest =>
      if obs_date r <=? obs_date x then r :: sorted else x :: insert_obs r rest
  end.

Fixpoint sort_obs (df : list obs) : list obs :=
  match df with
  | [] => []
  | r :: rest => insert_obs r (sort_obs rest)
  end.

(** [dfc] of line 186. *)
Definition kpi_rows (data : list obs) (iso : option string) (ind : string) : list obs :=
  sort_obs (List.filter (kpi_select iso ind) data).

(** What the KPI statements give: a value, or the [IndexError] of
    [iloc[-1]] on an empty series. *)
Inductive kpi_result (A : Type) : Type :=
| Computed (a : A)
| IndexError.
Arguments Computed {A} a.
Arguments IndexError {A}.

(** Line 187: [dfc["value"].dropna().iloc[-1] if not dfc.empty else None]. *)
Definition kpi_current (dfc : list obs) : kpi_result (option R) :=
  match dfc with
  | [] => Computed None
  | _ :: _ =>
      match rev (present (map obs_value dfc)) with
      | [] => IndexError
      | v :: _ => Computed (Some v)
      end
  end.

(** Line 188: [dfc["value"].dropna().iloc[-2] if
    len(dfc.dropna(subset=["value"])) >= 2 else None]. *)
Definition kpi_previous (dfc : list obs) : option R :=
  match rev (present (map obs_value dfc)) with
  | _ :: p :: _ => Some p
  | _ => None
  end.

Inductive arrow : Type := rising | falling.
Inductive colour : Type := green | red | secondary.

(** The triple of [kpi_delta]: the placeholder [("—", "", "secondary")],
    or the current value, the arrow with the size of the change, and the
    colour.  The texts [f"{x:.2f}"] are kept as the numbers they print. *)
Inductive kpi : Type :=
| placeholder
| figures (current : cell) (sign : arrow) (change : cell) (c : colour).

Definition cabs (a : cell) : cell :=
  match a with
  | Val x => Val (Rabs x)
  | NaN => NaN
  end.

(** [delta >= 0]; a comparison with NaN is false. *)
Definition nonneg (a : cell) : bool :=
  match a with
  | Val x => if Rle_dec 0 x then true else false
  | NaN => false
  end.

(** [kpi_delta] (lines 125-131).  An argument is [None], or a float that
    may be NaN. *)
Definition kpi_delta (current previous : option cell) : kpi :=
  match current, previous with
  | None, _ | _, None => placeholder
  | Some _, Some NaN => placeholder
  | Some c, Some p =>
      let delta := csub c p in
      figures c (if nonneg delta then rising else falling) (cabs delta)
              (if nonneg delta then green else red)
  end.

(** [primary_country] (line 184) and [iso] (line 185). *)
Definition primary_country (countries : list string) : string :=
  match countries with
  | c :: _ => c
  | [] => "United States"
  end.

(** Lines 184-189 for one indicator. *)
Definition kpi_metric (data : list obs) (countries : list string) (ind : string)
  : kpi_result kpi :=
  let iso := assoc (primary_country countries) COUNTRIES in
  let dfc := kpi_rows data iso ind in
  match kpi_current dfc with
  | IndexError => IndexError
  | Computed current =>
      Computed (kpi_delta (option_map Val current) (option_map Val (kpi_previous dfc)))
  end.

(** A frame with the series of two countries. *)
Definition kpi_sample : list obs :=
  [deu_gdp_obs 2021 (Val 3); usa_gdp_obs 2021 NaN; usa_gdp_obs 2019 (Val 2);
   usa_gdp_obs 2020 (Val (-3)); deu_gdp_obs 2020 NaN].

(** ** The indicator options *)

(** X14.  Parsing an option text gives back the code it was built from,
    for every code without a space (the separator begins with one). *)
Theorem option_text_round_trip (k lab : list Z) :
  ~ In 32 k -> indicator_code (option_text k lab) = k.
Proof.
  unfold indicator_code, option_text. induction k as [|ch k IH]; intros Hno.
  - reflexivity.
  - assert (Hch : ch <> 32) by (intros ->; apply Hno; left; reflexivity).
    cbn [app before_first separator is_prefix].
    replace (32 =? ch) with false by (symmetry; apply Z.eqb_neq; congruence).
    cbn [andb]. f_equal. apply IH. intros Hin. apply Hno. right. assumption.
Qed.

(** The X14 theorem at the first indicator of the script. *)
Lemma option_text_round_trip_gdp :
  indicator_code (option_text (code_points "NY.GDP.MKTP.KD.ZG") (code_points "GDP growth"))
  = code_points "NY.GDP.MKTP.KD.ZG".
Proof.
  apply (option_text_round_trip (code_points "NY.GDP.MKTP.KD.ZG") (code_points "GDP growth")).
  vm_compute. intuition discriminate.
Defined.

(** All the options of the script parse back to the keys of [INDICATORS]. *)
Example indicator_options_parse :
  map indicator_code indicator_options = map (fun kv => code_points (fst kv)) INDICATORS.
Proof. vm_compute. reflexivity. Qed.

(** ** The KPI row *)

Section KpiRow.
Local Open Scope R_scope.

Definition by_obs_year (a b : obs) : Prop := (obs_date a <= obs_date b)%Z.

Lemma insert_obs_perm (r : obs) (l : list obs) : Permutation (r :: l) (insert_obs r l).
Proof.
  induction l as [|x l IH]; cbn [insert_obs].
  - apply Permutation_refl.
  - destruct (obs_date r <=? obs_date x)%Z.
    + apply Permutation_refl.
    + eapply perm_trans; [apply perm_swap|]. constructor. exact IH.
Qed.

Lemma sort_obs_perm (df : list obs) : Permutation df (sort_obs df).
Proof.
  induction df as [|r df IH]; cbn [sort_obs].
  - constructor.
  - eapply perm_trans; [|apply insert_obs_perm]. constructor. exact IH.
Qed.

Lemma insert_obs_sorted (r : obs) (l : list obs) :
  StronglySorted by_obs_year l -> StronglySorted by_obs_year (insert_obs r l).
Proof.
  induction l as [|x l IH]; intros Hs; cbn [insert_obs].
  - repeat constructor.
  - apply StronglySorted_inv in Hs as [Hl Hx].
    destruct (obs_date r <=? obs_date x)%Z eqn:Hle.
    + apply Z.leb_le in Hle. constructor; [constructor; assumption|].
      constructor; [exact Hle|].
      rewrite List.Forall_forall in *. intros z Hz. specialize (Hx z Hz).
      unfold by_obs_year in *. lia.
    + apply Z.leb_gt in Hle. constructor; [apply IH; assumption|].
      rewrite List.Forall_forall in *. intros z Hz.
      apply (Permutation_in _ (Permutation_sym (insert_obs_perm r l))) in Hz.
      destruct Hz as [<- | Hz]; [unfold by_obs_year; lia | apply Hx; assumption].
Qed.

Lemma sort_obs_sorted (df : list obs) : StronglySorted by_obs_year (sort_obs df).
Proof.
  induction df as [|r df IH]; cbn [sort_obs].
  - constructor.
  - apply insert_obs_sorted. exact IH.
Qed.

Lemma kpi_rows_In (data : list obs) (iso : option string) (ind : string) (r : obs) :
  In r (kpi_rows data iso ind) <-> In r data /\ kpi_select iso ind r = true.
Proof.
  unfold kpi_rows. rewrite <- List.filter_In. split.
  - apply Permutation_in, Permutation_sym, sort_obs_perm.
  - apply Permutation_in, sort_obs_perm.
Qed.

Lemma present_app (a b : list cell) : present (a ++ b) = present a ++ present b.
Proof.
  induction a as [|[x|] a IH]; cbn [app present].
  - reflexivity.
  - rewrite IH. reflexivity.
  - exact IH.
Qed.

Lemma present_nil (l : list obs) :
  present (map obs_value l) = [] <-> forall x, In x l -> obs_value x = NaN.
Proof.
  induction l as [|y l IH]; cbn [map present].
  - split; [intros _ x [] | reflexivity].
  - destruct (obs_value y) as [v|] eqn:Hy.
    + split; [discriminate|]. intros H. specialize (H y (or_introl eq_refl)). congruence.
    + rewrite IH. split.
      * intros H x [<- | Hx]; [assumption | apply H; assumption].
      * intros H x Hx. apply H. right. assumption.
Qed.

(** The last present value of a frame belongs to a row after which no row
    has a value. *)
Lemma last_present_row (l : list obs) : forall (v : R) (rest : list R),
  rev (present (map obs_value l)) = v :: rest ->
  exists pre r post,
    l = pre ++ r :: post /\ obs_value r = Val v
    /\ present (map obs_value post) = []
    /\ rev (present (map obs_value pre)) = rest.
Proof.
  induction l as [|x l IH] using rev_ind; intros v rest Hrev.
  - discriminate.
  - rewrite map_app, present_app in Hrev. cbn [map present] in Hrev.
    destruct (obs_value x) as [u|] eqn:Hx.
    + cbn [present] in Hrev. rewrite rev_app_distr in Hrev. cbn in Hrev.
      injection Hrev as <- <-. exists l, x, []. repeat split; auto.
    + cbn [present] in Hrev. rewrite app_nil_r in Hrev.
      destruct (IH v rest Hrev) as (pre & r & post & -> & Hr & Hpost & Hpre).
      exists pre, r, (post ++ [x]). repeat split; auto.
      * rewrite <- app_assoc. reflexivity.
      * rewrite map_app, present_app, Hpost. cbn [map present]. rewrite Hx. reflexivity.
Qed.

Lemma sorted_before (pre post : list obs) (r : obs) :
  StronglySorted by_obs_year (pre ++ r :: post) ->
  forall x, In x pre -> (obs_date x <= obs_date r)%Z.
Proof.
  induction pre as [|y pre IH]; intros Hs x Hx; [destruct Hx|].
  cbn [app] in Hs. apply StronglySorted_inv in Hs as [Hs Hy].
  destruct Hx as [<- | Hx].
  - rewrite List.Forall_forall in Hy. apply Hy. apply in_or_app. right. left. reflexivity.
  - apply IH; assumption.
Qed.


(** X16.  When the frame has rows of the primary country and the indicator
    but none of them has a value, the KPI statements raise [IndexError]:
    the test [not dfc.empty] lets the empty series of values through. *)
Theorem kpi_fails_without_values (data : list obs) (countries : list string)
    (ind : string) :
  let iso := assoc (primary_country countries) COUNTRIES in
  (exists r, In r data /\ kpi_select iso ind r = true) ->
  (forall r, In r data -> kpi_select iso ind r = true -> obs_value r = NaN) ->
  kpi_metric data countries ind = IndexError.
Proof.
  intros iso (r & Hin & Hsel) Hnan. unfold kpi_metric. fold iso.
  assert (Hr : In r (kpi_rows data iso ind)) by (apply kpi_rows_In; auto).
  assert (Hnil : present (map obs_value (kpi_rows data iso ind)) = []).
  { apply present_nil. intros x Hx. apply kpi_rows_In in Hx as [Hx1 Hx2]. auto. }
  unfold kpi_current. destruct (kpi_rows data iso ind) as [|d0 dfc']; [destruct Hr|].
  rewrite Hnil. reflexivity.
Qed.

End KpiRow.

(** A frame in which the primary country has rows without any value. *)
Definition valueless_series : list obs :=
  [usa_gdp_obs 2019 NaN; usa_gdp_obs 2020 NaN].


(** The X16 theorem at [valueless_series]. *)
Lemma kpi_fails_without_values_sample :
  kpi_metric valueless_series ["United States"%string] "NY.GDP.MKTP.KD.ZG" = IndexError.
Proof.
  apply (kpi_fails_without_values valueless_series ["United States"%string]
           "NY.GDP.MKTP.KD.ZG").
  - exists (usa_gdp_obs 2019 NaN). split; [left; reflexivity | reflexivity].
  - intros r [<- | [<- | []]] _; reflexivity.
Defined.


(** ** A batch over stored series *)

Section StoredBatch.
Variable net : network.
Variable read_number : string -> option Q.
Variable fuel : nat.

Lemma run_pairs_stored (stored : string * string -> frame)
    (pairs : list (string * string)) (s : session) :
  (forall p, In p pairs -> series_cache s !! p = Some (stored p)) ->
  run_pairs net read_number fuel pairs s
  = (map (fun p => (p, Ok (stored p))) pairs, s).
Proof.
  induction pairs as [|[c ind] rest IH]; intros Hall; cbn [run_pairs map].
  - reflexivity.
  - rewrite (wb_fetch_series_hit net read_number fuel c ind s (stored (c, ind)))
      by (apply Hall; left; reflexivity).
    rewrite IH by (intros p Hp; apply Hall; right; assumption). reflexivity.
Qed.

Lemma successes_stored (stored : string * string -> frame) (pairs : list (string * string)) :
  successes (map (fun p => (p, Ok (stored p))) pairs) = map stored pairs
  /\ failures (map (fun p => (p, Ok (stored p))) pairs) = []
  /\ diverged (map (fun p => (p, Ok (stored p))) pairs) = false.
Proof.
  induction pairs as [|[c ind] rest (Hs & Hf & Hd)]; cbn [map successes failures diverged].
  - auto.
  - rewrite Hs, Hf, Hd. auto.
Qed.

(** X18.  When the frame of every pair of a batch is already in the series
    store, the body of [wb_fetch_multi] returns the stored frames stacked
    in order and leaves the session as it is: no request is issued and no
    message shown. *)
Theorem stored_series_need_no_request (stored : string * string -> frame)
    (countries_iso3 indicators : list string) (s : session) :
  (forall c ind, In c countries_iso3 -> In ind indicators ->
     series_cache s !! (c, ind) = Some (stored (c, ind))) ->
  fetch_multi_body net read_number fuel countries_iso3 indicators s
  = (Ok (concat (map stored (list_prod countries_iso3 indicators))), s).
Proof.
  intros Hall.
  pose proof (fetch_multi_body_spec net read_number fuel countries_iso3 indicators s) as Hb.
  cbv zeta in Hb.
  rewrite (run_pairs_stored stored) in Hb.
  - cbn [fst snd] in Hb.
    destruct (successes_stored stored (list_prod countries_iso3 indicators))
      as (Hs & Hf & Hd).
    rewrite Hd, Hs, Hf, app_nil_r, set_warnings_same in Hb. exact Hb.
  - intros [c ind] Hp. apply in_prod_iff in Hp as [Hc Hi]. apply Hall; assumption.
Qed.
End StoredBatch.

(** The X18 theorem after one fetch from [two_page_net], with the network
    down: the batch over that one pair returns the stored frame. *)
Lemma stored_series_example :
  let s := snd (wb_fetch_series two_page_net read_decimal 2 "USA" "NY.GDP.MKTP.KD.ZG"
                  new_session) in
  let stored := fun _ : string * string =>
    [ {| country := PStr "United States"; countryiso3code := PStr "USA";
         indicator := PStr "NY.GDP.MKTP.KD.ZG"; date := 2018; value := Some 2.9%Q |};
      {| country := PStr "United States"; countryiso3code := PStr "USA";
         indicator := PStr "NY.GDP.MKTP.KD.ZG"; date := 2019; value := Some 2.3%Q |} ] in
  fetch_multi_body down_net read_decimal 0 ["USA"%string] ["NY.GDP.MKTP.KD.ZG"%string] s
  = (Ok (concat (map stored (list_prod ["USA"%string] ["NY.GDP.MKTP.KD.ZG"%string]))), s).
Proof.
  cbv zeta.
  apply (stored_series_need_no_request down_net read_decimal 0).
  intros c ind [<- | []] [<- | []]. vm_compute. reflexivity.
Defined.
